(** * Patent citation dashboard: aggregation core

    A shallow embedding of [patent_dashboard_dash.py]: the table of
    per-company, per-year records, the company catalog, the three chart
    builders, the per-year summary and the callback that ties them to the
    selection widgets, followed by the properties the specification states
    about them.

    Numbers are kept as pandas keeps them. The named integer columns are
    [int64] and their sums wrap around; a per-year column is [int64], or
    [float64] when it has an empty cell, and the sum of a [float64] column
    is known only where it is exact. A frame is [pd.DataFrame()] or a table
    with the five named columns; the file is read by the environment, whose
    outcome, a table or an exception, is the argument of [load_data]. *)

From Stdlib Require Import ZArith DecimalString DecimalZ DecimalPos.
From stdpp Require Import base decidable option list list_numbers sorting gmap strings.

Local Open Scope Z_scope.

(** ** Python built-ins used by the module

    Strings are [string]s of 8-bit characters: comparison and slicing go
    character by character, as Python's do; the ids and names of the table
    are taken to be written in that alphabet. *)

Module Py.

(** [str(n)] for an integer: the decimal numeral, ["-"] first when negative. *)
Definition str (n : Z) : string := NilZero.string_of_int (Z.to_int n).

(** [int(s)] for a string. Python raises [ValueError] on anything that is
    not a numeral; the module only calls it on the result of [str], where
    [int_str] below shows that the numeral branch is the one taken. *)
Definition int (s : string) : Z :=
  match NilZero.int_of_string s with
  | Some d => Z.of_int d
  | None => 0
  end.

(** [range(lo, hi)]: [lo], ..., [hi - 1], empty when [hi <= lo]. *)
Definition range (lo hi : Z) : list Z := seqZ lo (hi - lo).

(** [s[:n]]: the first [n] characters, the whole string when it is shorter. *)
Definition prefix (n : nat) (s : string) : string := String.substring 0 n s.

End Py.

(** ** 64-bit integers

    pandas reads a column of integers as [int64] and numpy adds in that
    type without an overflow check: a sum that leaves the range wraps
    around. *)

Definition in_int64 (z : Z) : Prop := - 2 ^ 63 ≤ z < 2 ^ 63.

Global Instance in_int64_dec (z : Z) : Decision (in_int64 z).
Proof. unfold in_int64. apply _. Defined.

Definition wrap64 (z : Z) : Z := (z + 2 ^ 63) mod 2 ^ 64 - 2 ^ 63.

(** [a + b] on [int64]. *)
Definition add64 (a b : Z) : Z := wrap64 (a + b).

(** [series.sum()] on an [int64] column. *)
Definition sum (l : list Z) : Z := foldr add64 0 l.

(** The sum of the same numbers as integers, without a bound; it is what
    the statements compare [sum] with. *)
Definition total (l : list Z) : Z := foldr Z.add 0 l.

(** ** 64-bit floats

    A column with an empty cell is read as [float64], and its sum is a sum
    of IEEE doubles in the order numpy chooses. Neither the rounding nor
    that order is modelled. What the development uses of such a sum is the
    one fact that holds for every order: while the absolute values add up
    to at most [2^53], all partial sums are integers that a double holds
    exactly, so the result is the exact sum. [float_sum l] stands for the
    value of the sum of the cells [l] as numpy computes it. *)
Class FloatSum := {
  float_sum : list Z → Z;
  float_sum_exact (l : list Z) :
    total (Z.abs <$> l) ≤ 2 ^ 53 → float_sum l = total l;
}.

(** ** The table *)

(** One row of the consolidated CSV. The five named columns are read through
    the projections; the per-calendar-year columns are kept by column label,
    a label without an entry being an empty ([NaN]) cell. Every integer of
    a row is an [int64]: the last field of a row is the evidence, [I] for a
    row written out with numerals. *)
Record record := mkRecord {
  assignee_id : string;
  raw_assignee_organization : string;
  cited_year : Z;
  patents_assigned : Z;
  total_citations : Z;
  year_cells : gmap string Z;
  cells_int64 :
    bool_decide (in_int64 cited_year ∧ in_int64 patents_assigned
                 ∧ in_int64 total_citations
                 ∧ map_Forall (λ _ v, in_int64 v) year_cells);
}.

(** The labels of the five named columns, in the order of the file. *)
Definition core_columns : list string :=
  ["assignee_id"; "raw_assignee_organization"; "cited_year";
   "patents_assigned"; "total_citations"].

(** The type of a per-year column. *)
Inductive dtype := Int64 | Float64.

(** A [pandas.DataFrame] of this program: either [pd.DataFrame()], which
    has no columns and no rows, or a table with the five named columns,
    the per-year columns listed with their types, and the rows in index
    order. A frame that has some of the named columns and lacks others has
    no counterpart here. On [pd.DataFrame()] a lookup of a named column
    raises [KeyError]: [startup] and [update_dashboard], which can hold that
    frame, test for the column before they go on, and the functions they
    call treat the frame as a table without rows. *)
Inductive DataFrame :=
  | NoColumns
  | Table (year_columns : list (string * dtype)) (table_rows : list record).

Definition columns (df : DataFrame) : list string :=
  match df with
  | NoColumns => []
  | Table year_columns _ => core_columns ++ year_columns.*1
  end.

Definition rows (df : DataFrame) : list record :=
  match df with
  | NoColumns => []
  | Table _ table_rows => table_rows
  end.

(** The type of the column [label]; [Float64] also stands in for a label
    that is not a per-year column, which no caller passes. *)
Fixpoint column_dtype (label : string) (year_columns : list (string * dtype)) : dtype :=
  match year_columns with
  | [] => Float64
  | (c, t) :: rest => if decide (c = label) then t else column_dtype label rest
  end.

Definition dtype_of (label : string) (df : DataFrame) : dtype :=
  match df with
  | NoColumns => Float64
  | Table year_columns _ => column_dtype label year_columns
  end.

(** The table that [pd.read_csv] builds from rows with the per-year columns
    [year_labels]: a column is [int64] when every row has a cell in it and
    [float64] when a cell is empty. *)
Definition read_table (year_labels : list string) (rs : list record) : DataFrame :=
  Table ((λ label,
            (label, if bool_decide (Forall (λ r, is_Some (year_cells r !! label)) rs)
                    then Int64 else Float64)) <$> year_labels)
        rs.

Definition empty_frame : DataFrame := NoColumns.

(** [df[mask]] for a row predicate: the columns and their types stay, the
    rows are filtered in order. *)
Definition select (P : record → Prop) `{∀ r, Decision (P r)} (df : DataFrame) : DataFrame :=
  match df with
  | NoColumns => NoColumns
  | Table year_columns table_rows => Table year_columns (filter P table_rows)
  end.

(** [df.empty] *)
Definition is_empty (df : DataFrame) : bool :=
  match rows df with [] => true | _ :: _ => false end.

(** [df[col].sum()] for a named integer column. *)
Definition column_sum (col : record → Z) (df : DataFrame) : Z :=
  sum (col <$> rows df).

(** [df[label].sum()] for a per-year column. In an [int64] column every
    row has a cell; in a [float64] column [sum] skips the empty cells. *)
Definition year_column_sum `{FloatSum} (label : string) (df : DataFrame) : Z :=
  match dtype_of label df with
  | Int64 => sum ((λ r, default 0 (year_cells r !! label)) <$> rows df)
  | Float64 => float_sum (omap (λ r, year_cells r !! label) (rows df))
  end.

(** [series.unique()]: the distinct values in order of first appearance. *)
Fixpoint unique `{EqDecision A} (l : list A) : list A :=
  match l with
  | [] => []
  | a :: l' => a :: filter (λ b, b ≠ a) (unique l')
  end.

(** [df['assignee_id'].unique()] *)
Definition unique_ids (df : DataFrame) : list string :=
  unique (assignee_id <$> rows df).

(** [df[df['assignee_id'] == assignee_id]] *)
Definition company_rows (df : DataFrame) (id : string) : DataFrame :=
  select (λ r, assignee_id r = id) df.

(** [company_data[company_data['cited_year'] == selected_year]] *)
Definition year_rows (company_data : DataFrame) (selected_year : Z) : DataFrame :=
  select (λ r, cited_year r = selected_year) company_data.

(** [company_data['raw_assignee_organization'].iloc[0]]. On a frame without
    rows [iloc[0]] raises [IndexError]; every caller passes the rows of an id
    taken from [unique_ids], which has at least one
    ([company_rows_nonempty]). *)
Definition first_organization (company_data : DataFrame) : string :=
  match rows company_data with
  | r :: _ => raw_assignee_organization r
  | [] => ""
  end.

(** [df.groupby(key)[val].agg(...).reset_index()]: one row per distinct key,
    the rows in ascending key order (pandas sorts group keys), the values of
    a group combined with [merge] in row order. *)
Fixpoint group_add {K V} (cmp : K → K → comparison) (merge : V → V → V)
    (k : K) (v : V) (groups : list (K * V)) : list (K * V) :=
  match groups with
  | [] => [(k, v)]
  | (k', v') :: rest =>
      match cmp k k' with
      | Lt => (k, v) :: groups
      | Eq => (k', merge v' v) :: rest
      | Gt => (k', v') :: group_add cmp merge k v rest
      end
  end.

Definition groupby {R K V} (cmp : K → K → comparison) (merge : V → V → V)
    (key : R → K) (val : R → V) (rs : list R) : list (K * V) :=
  foldl (λ groups r, group_add cmp merge (key r) (val r) groups) [] rs.

(** [company_data.groupby('cited_year')[col].sum().reset_index()] on an
    [int64] column. *)
Definition groupby_year_sum (col : record → Z) (company_data : DataFrame) : list (Z * Z) :=
  groupby Z.compare add64 cited_year col (rows company_data).

(** [frame.sort_values('cited_year')] on (year, value) rows. *)
Definition by_year (a b : Z * Z) : Prop := a.1 ≤ b.1.

Global Instance by_year_dec : RelDecision by_year.
Proof. intros a b. unfold by_year. apply _. Defined.

Definition sort_values_year (l : list (Z * Z)) : list (Z * Z) := merge_sort by_year l.

(** ** Figures *)

(** A [go.Scatter] trace: the x and y columns and the legend name. Line
    width, mode and hover template are presentation only. *)
Record Scatter := mkScatter {
  trace_x : list Z;
  trace_y : list Z;
  trace_name : string;
}.

(** A [go.Figure]: its traces in the order [add_trace] received them, and the
    title set by [update_layout]. *)
Record Figure := mkFigure {
  fig_data : list Scatter;
  fig_title : string;
}.

(** ** Company catalog *)

(** Order of the group keys of [groupby(['assignee_id',
    'raw_assignee_organization'])]: by id, then by organization. *)
Definition pair_compare (a b : string * string) : comparison :=
  match String.compare a.1 b.1 with
  | Eq => String.compare a.2 b.2
  | c => c
  end.

(** [raw_assignee_organization + ' (' + assignee_id.str[:8] + '...)'] *)
Definition display_name (organization id : string) : string :=
  organization +:+ " (" +:+ Py.prefix 8 id +:+ "...)".

(** [sort_values('display_name')] on (assignee_id, display_name) rows.
    Strings compare character by character, as [String.le] does. pandas
    does not fix the order of rows with equal keys; nothing below depends
    on it. *)
Definition by_display_name (a b : string * string) : Prop := String.le a.2 b.2.

Global Instance by_display_name_dec : RelDecision by_display_name.
Proof. intros a b. unfold by_display_name. apply _. Defined.

Definition get_company_list (df : DataFrame) : list (string * string) :=
  let companies :=
    groupby pair_compare Z.add
      (λ r, (assignee_id r, raw_assignee_organization r)) (λ _, 1) (rows df) in
  let labelled := (λ g, (g.1.1, display_name g.1.2 g.1.1)) <$> companies in
  merge_sort by_display_name labelled.


(** ** Citations to the selected year *)

(** The inner loop of [create_citations_to_year_chart]: one point per label
    of [year_cols] that is a column of the frame, in the order of
    [year_cols]. *)
Definition citations_by_year `{FloatSum} (year_data : DataFrame) (selected_year : Z)
    : list (Z * Z) :=
  let year_cols := Py.str <$> Py.range (selected_year + 1) 2026 in
  omap (λ year_col,
          if bool_decide (year_col ∈ columns year_data)
          then Some (Py.int year_col, year_column_sum year_col year_data)
          else None)
       year_cols.

(** The last year that [range(selected_year + 1, 2026)] reaches. *)
Definition horizon : Z := 2025.

(** The body of the outer loop: the trace added for one company, if any. *)
Definition citations_trace `{FloatSum} (df_companies : DataFrame) (selected_year : Z)
    (id : string) : option Scatter :=
  let company_data := company_rows df_companies id in
  let company_name := first_organization company_data in
  let year_data := year_rows company_data selected_year in
  if is_empty year_data then None
  else
    let points := citations_by_year year_data selected_year in
    match points with
    | [] => None
    | _ :: _ => Some (mkScatter (points.*1) (points.*2) company_name)
    end.

Definition create_citations_to_year_chart `{FloatSum} (df_companies : DataFrame)
    (selected_year : Z) : Figure :=
  mkFigure
    (omap (citations_trace df_companies selected_year) (unique_ids df_companies))
    ("Citations to Patents from " +:+ Py.str selected_year +:+ " by Subsequent Year").

(** ** Patents assigned in the selected year *)

(** The body of the loop of [get_patents_in_year]: the entry
    [{'company': ..., 'patents': ...}] appended for one company. *)
Definition patents_entry (df_companies : DataFrame) (selected_year : Z)
    (id : string) : string * Z :=
  let company_data := company_rows df_companies id in
  let company_name := first_organization company_data in
  let year_data := year_rows company_data selected_year in
  if is_empty year_data then (company_name, 0)
  else (company_name, column_sum patents_assigned year_data).

Definition get_patents_in_year (df_companies : DataFrame) (selected_year : Z)
    : list (string * Z) :=
  patents_entry df_companies selected_year <$> unique_ids df_companies.

(** ** Timelines *)

(** The loop body shared by [create_patents_timeline] and
    [create_citations_timeline], which differ in the summed column. *)
Definition timeline_trace (col : record → Z) (df_companies : DataFrame)
    (id : string) : Scatter :=
  let company_data := company_rows df_companies id in
  let company_name := first_organization company_data in
  let per_year := sort_values_year (groupby_year_sum col company_data) in
  mkScatter (per_year.*1) (per_year.*2) company_name.

Definition create_patents_timeline (df_companies : DataFrame) : Figure :=
  mkFigure
    (timeline_trace patents_assigned df_companies <$> unique_ids df_companies)
    "Patents Assigned by Year - Company Comparison".

Definition create_citations_timeline (df_companies : DataFrame) : Figure :=
  mkFigure
    (timeline_trace total_citations df_companies <$> unique_ids df_companies)
    "Total Citations Received by Year - Company Comparison".

(** ** Start-up, layout and callback *)

(** The module-level state built once at import time. *)
Record AppState := mkState {
  df : DataFrame;
  companies : list (string * string);
  available_years : list Z;
}.

Inductive exn :=
  | FileNotFoundError
  | PermissionError
  | EmptyDataError
  | ParserError
  | KeyError (label : string).

Inductive result (A : Type) :=
  | Returned (a : A)
  | Raised (e : exn).
Arguments Returned {A} _.
Arguments Raised {A} _.

(** [load_data]. [read_csv] is what [pd.read_csv] does on the fixed path
    when the program starts: it returns the table of the file, or raises
    [FileNotFoundError] when there is no such file and another exception
    when the file cannot be opened, is empty or cannot be parsed. *)
Definition load_data (read_csv : result DataFrame) : result DataFrame := read_csv.

(** The [try ... except FileNotFoundError] block; any other exception
    leaves the block and ends the program. [groupby] in [get_company_list]
    is the first to ask for a named column. *)
Definition startup (read_csv : result DataFrame) : result AppState :=
  match load_data read_csv with
  | Returned loaded =>
      if bool_decide ("assignee_id" ∈ columns loaded) then
        Returned (mkState loaded (get_company_list loaded)
                          (merge_sort Z.le (unique (cited_year <$> rows loaded))))
      else Raised (KeyError "assignee_id")
  | Raised FileNotFoundError => Returned (mkState empty_frame [] [])
  | Raised e => Raised e
  end.

(** A [dcc.Dropdown]: its (label, value) options and its initial value. *)
Record Dropdown (V S : Type) := mkDropdown {
  options : list (string * V);
  value : S;
}.
Arguments mkDropdown {V S} _ _.
Arguments options {V S} _.
Arguments value {V S} _.

Definition company_dropdown (st : AppState) : Dropdown string (list string) :=
  mkDropdown ((λ row, (row.2, row.1)) <$> companies st)
             (match companies st with row :: _ => [row.1] | [] => [] end).

Definition year_dropdown (st : AppState) : Dropdown Z (option Z) :=
  mkDropdown ((λ year, (Py.str year, year)) <$> available_years st)
             (head (available_years st)).

(** What the callback hands to an output: a plain string, the summary block
    (heading year and one list item per entry of [patents_in_year]; the
    thousands formatting of the item text is presentation), or a graph. *)
Inductive component :=
  | Text (s : string)
  | SummaryDiv (selected_year : Z) (patents_in_year : list (string * Z))
  | Graph (figure : Figure).

(** Truth value of the two inputs: [None] and [[]] are false for the company
    list, [None] and [0] for the year. *)
Definition truthy_companies (selected_companies : option (list string)) : bool :=
  match selected_companies with
  | Some (_ :: _) => true
  | _ => false
  end.

Definition truthy_year (selected_year : option Z) : bool :=
  match selected_year with
  | Some y => negb (y =? 0)
  | None => false
  end.

(** [df[df['assignee_id'].isin(selected_companies)].copy()] *)
Definition isin (df : DataFrame) (selected_companies : list string) : DataFrame :=
  select (λ r, assignee_id r ∈ selected_companies) df.

Definition prompt : string := "Please select companies and a year to analyze.".

Definition update_dashboard `{FloatSum} (st : AppState)
    (selected_companies : option (list string)) (selected_year : option Z)
    (active_tab : string) : result (component * component) :=
  if negb (truthy_companies selected_companies) || negb (truthy_year selected_year)
  then Returned (Text prompt, Text "")
  else
    (* past the guard both inputs hold a value *)
    let ids := default [] selected_companies in
    let year := default 0 selected_year in
    if bool_decide ("assignee_id" ∈ columns (df st)) then
      let companies_data := isin (df st) ids in
      let patents_in_year := get_patents_in_year companies_data year in
      let summary_text := SummaryDiv year patents_in_year in
      let content :=
        if bool_decide (active_tab = "citations-to-year")
        then Graph (create_citations_to_year_chart companies_data year)
        else if bool_decide (active_tab = "patents-timeline")
        then Graph (create_patents_timeline companies_data)
        else if bool_decide (active_tab = "citations-timeline")
        then Graph (create_citations_timeline companies_data)
        else Text "" in
      Returned (summary_text, content)
    else Raised (KeyError "assignee_id").

(** ** Tables used in the statements and examples *)

(** The table without the rows of one company. *)
Definition drop_company (id : string) (df : DataFrame) : DataFrame :=
  select (λ r, assignee_id r ≠ id) df.

(** What a timeline trace of company [id] has to be for the column [col],
    all sums being [int64] sums: its values add up to the column sum of the
    company, its years are strictly increasing, they are the years in which
    the company has a row, and the value at a year is the sum of the column
    over the company's rows of that year. *)
Definition timeline_of (col : record → Z) (df : DataFrame) (id : string)
    (s : Scatter) : Prop :=
  sum (trace_y s) = sum (col <$> filter (λ r, assignee_id r = id) (rows df))
  ∧ StronglySorted Z.lt (trace_x s)
  ∧ length (trace_x s) = length (trace_y s)
  ∧ (∀ y, y ∈ trace_x s ↔
          ∃ r, r ∈ rows df ∧ assignee_id r = id ∧ cited_year r = y)
  ∧ (∀ j y v, trace_x s !! j = Some y → trace_y s !! j = Some v →
       v = sum (col <$>
                  filter (λ r, assignee_id r = id ∧ cited_year r = y) (rows df))).

(** No exact sum of [col] over the rows of company [id] for one year leaves
    the [int64] range. *)
Definition year_totals_fit (col : record → Z) (df : DataFrame) (id : string) : Prop :=
  Forall (λ r, in_int64 (total (col <$>
                 filter (λ r', assignee_id r' = id ∧ cited_year r' = cited_year r)
                        (rows df))))
         (rows df).

Global Instance year_totals_fit_dec col df id : Decision (year_totals_fit col df id).
Proof. unfold year_totals_fit. apply _. Defined.

(** The same trace measured with exact sums: its values add up to the exact
    column total of the company, and the value at a year is the exact sum
    of the column over the company's rows of that year. *)
Definition exact_timeline_of (col : record → Z) (df : DataFrame) (id : string)
    (s : Scatter) : Prop :=
  total (trace_y s) = total (col <$> filter (λ r, assignee_id r = id) (rows df))
  ∧ (∀ j y v, trace_x s !! j = Some y → trace_y s !! j = Some v →
       v = total (col <$>
                    filter (λ r, assignee_id r = id ∧ cited_year r = y) (rows df))).

(** A trace with one point for every year after [Y] up to the horizon. *)
Definition contiguous_to_horizon (Y : Z) (s : Scatter) : Prop :=
  trace_x s = seqZ (Y + 1) (horizon - Y)
  ∧ length (trace_y s) = Z.to_nat (horizon - Y).

(** Sums without rounding: what every [float_sum] is on the tables below,
    whose numbers are far below [2^53]. It serves to run the examples. *)
Global Instance exact_float_sum : FloatSum :=
  {| float_sum := total; float_sum_exact := λ _ _, eq_refl |}.

Definition acme_2015 : record :=
  mkRecord "AAAAAAAA1234" "Acme" 2015 10 5 (<["2016" := 3]> (<["2017" := 7]> ∅)) I.
Definition acme_2016 : record := mkRecord "AAAAAAAA1234" "Acme" 2016 8 2 ∅ I.
Definition beta_2016a : record := mkRecord "BBBB" "Beta" 2016 4 1 ∅ I.
Definition beta_2016b : record := mkRecord "BBBB" "Beta" 2016 6 2 ∅ I.

(** Two companies, a column for every year from 2016 to 2025. *)
Definition sample_table : DataFrame :=
  read_table (Py.str <$> Py.range 2016 2026)
             [acme_2015; acme_2016; beta_2016a; beta_2016b].

(** A table whose per-year columns skip 2024. *)
Definition gappy_table : DataFrame :=
  read_table ["2023"; "2025"]
             [mkRecord "AAAAAAAA1234" "Acme" 2022 10 5
                       (<["2023" := 3]> (<["2025" := 7]> ∅)) I].

(** One company with two rows for 2015 whose patents add up to [2^63]. *)
Definition overflow_table : DataFrame :=
  read_table []
             [mkRecord "AAAAAAAA1234" "Acme" 2015 (2 ^ 63 - 1) 5 ∅ I;
              mkRecord "AAAAAAAA1234" "Acme" 2015 1 (2 ^ 63 - 1) ∅ I].

(** The state after a start-up that found [sample_table] in the file. *)
Definition sample_state : AppState :=
  mkState sample_table
          [("AAAAAAAA1234", "Acme (AAAAAAAA...)"); ("BBBB", "Beta (BBBB...)")]
          [2015; 2016].

(** The state after a start-up without the file. *)
Definition fallback_state : AppState := mkState empty_frame [] [].

(** A table with a row for the last year the chart looks at. *)
Definition last_year_table : DataFrame :=
  read_table (Py.str <$> Py.range 2016 2026)
             [mkRecord "AAAAAAAA1234" "Acme" 2025 10 5 ∅ I].

(** ** Conditions on tables used in the statements *)

(** The (id, organization) pairs of a table, one per row. *)
Definition company_pairs (df : DataFrame) : list (string * string) :=
  (λ r, (assignee_id r, raw_assignee_organization r)) <$> rows df.

(** Every company has a single organization name. *)
Definition consistent_names (df : DataFrame) : Prop :=
  Forall (λ r, Forall (λ r', assignee_id r = assignee_id r' →
                             raw_assignee_organization r = raw_assignee_organization r')
                      (rows df))
         (rows df).

(** No count of the table is negative. *)
Definition nonnegative (df : DataFrame) : Prop :=
  Forall (λ r, 0 ≤ patents_assigned r ∧ 0 ≤ total_citations r
               ∧ map_Forall (λ _ v, 0 ≤ v) (year_cells r))
         (rows df).

(** The counts of the table are small enough for every [int64] sum to be
    exact: the absolute values of [patents_assigned] and of
    [total_citations] add up to less than [2^63]. *)
Definition counts_within_range (df : DataFrame) : Prop :=
  total (Z.abs ∘ patents_assigned <$> rows df) < 2 ^ 63
  ∧ total (Z.abs ∘ total_citations <$> rows df) < 2 ^ 63.

Global Instance counts_within_range_dec df : Decision (counts_within_range df).
Proof. unfold counts_within_range. apply _. Defined.

(** The cells of the per-year columns are small enough for every sum of
    them to be exact, in [int64] and in [float64]: the absolute values of
    each column add up to at most [2^53]. *)
Definition cells_within_range (df : DataFrame) : Prop :=
  Forall (λ label,
            total ((λ r, Z.abs (default 0 (year_cells r !! label))) <$> rows df)
            ≤ 2 ^ 53)
         (columns df).

Global Instance cells_within_range_dec df : Decision (cells_within_range df).
Proof. unfold cells_within_range. apply _. Defined.

(** The trace carries the organization name of the first row of company
    [id], which is not the catalog's display name of that company. *)
Definition named_after (df : DataFrame) (id : string) (s : Scatter) : Prop :=
  ∃ r, head (filter (λ r, assignee_id r = id) (rows df)) = Some r
       ∧ trace_name s = raw_assignee_organization r
       ∧ trace_name s ≠ display_name (raw_assignee_organization r) id.

(** The company has a row for the year. *)
Definition has_row_at (df : DataFrame) (Y : Z) (id : string) : Prop :=
  Exists (λ r, assignee_id r = id ∧ cited_year r = Y) (rows df).

Global Instance has_row_at_dec (df : DataFrame) (Y : Z) (id : string) :
  Decision (has_row_at df Y id).
Proof. unfold has_row_at. apply _. Defined.

(** The rows of [sample_table] in another order. *)
Definition reordered_sample : DataFrame :=
  read_table (Py.str <$> Py.range 2016 2026) (reverse (rows sample_table)).

(** * Properties *)

(** ** Built-ins *)

Lemma int_str (n : Z) : Py.int (Py.str n) = n.
Proof.
  unfold Py.int, Py.str. rewrite NilZero.isi.
  - apply DecimalZ.of_to.
  - destruct n as [|p|p]; simpl; [discriminate| |discriminate].
    intros [= Hp]. by apply Unsigned.to_uint_nonnil in Hp.
  - destruct n as [|p|p]; simpl; [discriminate|discriminate|].
    intros [= Hp]. by apply Unsigned.to_uint_nonnil in Hp.
Qed.

(** ** Sums in [int64] *)

Lemma wrap64_in_int64 (z : Z) : in_int64 (wrap64 z).
Proof.
  unfold in_int64, wrap64.
  pose proof (Z.mod_pos_bound (z + 2 ^ 63) (2 ^ 64)). lia.
Qed.

Lemma wrap64_id (z : Z) : in_int64 z → wrap64 z = z.
Proof.
  unfold in_int64, wrap64. intros Hz.
  rewrite Z.mod_small by lia. lia.
Qed.

Lemma wrap64_add_l (a b : Z) : wrap64 (wrap64 a + b) = wrap64 (a + b).
Proof.
  unfold wrap64. f_equal.
  replace ((a + 2 ^ 63) mod 2 ^ 64 - 2 ^ 63 + b + 2 ^ 63)
    with ((a + 2 ^ 63) mod 2 ^ 64 + b) by lia.
  rewrite Zplus_mod_idemp_l. f_equal. lia.
Qed.

Lemma wrap64_add_r (a b : Z) : wrap64 (a + wrap64 b) = wrap64 (a + b).
Proof. rewrite (Z.add_comm a), wrap64_add_l. f_equal. lia. Qed.

Lemma total_cons (a : Z) (l : list Z) : total (a :: l) = a + total l.
Proof. done. Qed.

Lemma total_app (l k : list Z) : total (l ++ k) = total l + total k.
Proof. unfold total. induction l as [|a l IH]; simpl; lia. Qed.

Lemma sum_cons (a : Z) (l : list Z) : sum (a :: l) = add64 a (sum l).
Proof. done. Qed.

(** The [int64] sum is the exact sum brought back into the range. *)
Lemma sum_total (l : list Z) : sum l = wrap64 (total l).
Proof.
  induction l as [|a l IH]; [done|].
  rewrite sum_cons, total_cons, IH. unfold add64. apply wrap64_add_r.
Qed.

Lemma sum_in_int64 (l : list Z) : in_int64 (sum l).
Proof. rewrite sum_total. apply wrap64_in_int64. Qed.

(** It is the exact sum when that is in the range. *)
Lemma sum_exact (l : list Z) : in_int64 (total l) → sum l = total l.
Proof. intros Hl. rewrite sum_total. by apply wrap64_id. Qed.

Lemma sum_app (l k : list Z) : sum (l ++ k) = add64 (sum l) (sum k).
Proof.
  rewrite !sum_total, total_app. unfold add64.
  by rewrite wrap64_add_l, wrap64_add_r.
Qed.

(** Addition on [int64] is commutative and associative, wrap-around
    included: the order in which numpy adds the cells of a column does not
    change the sum. *)
Lemma add64_comm (a b : Z) : add64 a b = add64 b a.
Proof. unfold add64. f_equal. lia. Qed.

Lemma add64_assoc (a b c : Z) : add64 a (add64 b c) = add64 (add64 a b) c.
Proof.
  unfold add64. rewrite wrap64_add_l, wrap64_add_r. f_equal. lia.
Qed.

Lemma add64_0_r (a : Z) : in_int64 a → add64 a 0 = a.
Proof. intros Ha. unfold add64. rewrite Z.add_0_r. by apply wrap64_id. Qed.

(** The integers of a row are in the range. *)
Lemma record_in_int64 (r : record) :
  in_int64 (cited_year r) ∧ in_int64 (patents_assigned r)
  ∧ in_int64 (total_citations r)
  ∧ ∀ label v, year_cells r !! label = Some v → in_int64 v.
Proof.
  pose proof (bool_decide_unpack _ (cells_int64 r)) as (Hy & Hp & Hc & Hcells).
  split; [done|]. split; [done|]. split; [done|].
  intros label v Hv. exact (Hcells label v Hv).
Qed.

Lemma total_abs (l : list Z) : Z.abs (total l) ≤ total (Z.abs <$> l).
Proof. induction l as [|a l IH]; [done|]. rewrite fmap_cons, !total_cons. lia. Qed.

Lemma total_fmap_nonneg {A} (f : A → Z) (l : list A) :
  (∀ a, a ∈ l → 0 ≤ f a) → 0 ≤ total (f <$> l).
Proof.
  induction l as [|b l IH]; intros Hf; [done|].
  rewrite fmap_cons, total_cons.
  assert (0 ≤ f b) by (apply Hf; left).
  assert (0 ≤ total (f <$> l)) by (apply IH; intros a Ha; apply Hf; by right).
  lia.
Qed.

Lemma total_filter_le {A} (f : A → Z) (P : A → Prop) `{!∀ a, Decision (P a)}
    (l : list A) :
  (∀ a, a ∈ l → 0 ≤ f a) → total (f <$> filter P l) ≤ total (f <$> l).
Proof.
  induction l as [|b l IH]; intros Hf; [done|].
  assert (0 ≤ f b) by (apply Hf; left).
  assert (total (f <$> filter P l) ≤ total (f <$> l))
    by (apply IH; intros a Ha; apply Hf; by right).
  rewrite filter_cons. case_decide; rewrite !fmap_cons, !total_cons; [lia|].
  assert (0 ≤ total (f <$> filter P l)).
  { apply total_fmap_nonneg. intros a Ha. apply list_elem_of_filter in Ha as [_ Ha].
    apply Hf. by right. }
  lia.
Qed.

(** A sum over some of the rows stays in the range when the absolute
    values of all rows add up to less than [2^63]. *)
Lemma total_filter_in_int64 {A} (f : A → Z) (P : A → Prop) `{!∀ a, Decision (P a)}
    (l : list A) :
  total (Z.abs ∘ f <$> l) < 2 ^ 63 → in_int64 (total (f <$> filter P l)).
Proof.
  intros Hl.
  pose proof (total_abs (f <$> filter P l)) as Habs.
  rewrite <- list_fmap_compose in Habs.
  pose proof (total_filter_le (Z.abs ∘ f) P l) as Hle.
  unfold in_int64. assert (∀ a, a ∈ l → 0 ≤ (Z.abs ∘ f) a) as Hpos.
  { intros a _. unfold compose. lia. }
  specialize (Hle Hpos). lia.
Qed.

Global Instance total_Permutation : Proper ((≡ₚ) ==> (=)) total.
Proof.
  intros l k Hlk. induction Hlk as [|a l k _ IH|a b l|l k m _ IH1 _ IH2].
  - done.
  - by rewrite !total_cons, IH.
  - rewrite !total_cons. lia.
  - by rewrite IH1.
Qed.

Global Instance sum_Permutation : Proper ((≡ₚ) ==> (=)) sum.
Proof. intros l k Hlk. by rewrite !sum_total, Hlk. Qed.

Lemma total_fmap_concat {A} (f : A → Z) (ls : list (list A)) :
  total (f <$> concat ls) = total ((λ l, total (f <$> l)) <$> ls).
Proof.
  induction ls as [|l ls IH]; [done|].
  simpl concat. rewrite fmap_app, total_app, IH. by rewrite fmap_cons, total_cons.
Qed.

(** ** Frames *)

Lemma rows_select (P : record → Prop) `{!∀ r, Decision (P r)} (df : DataFrame) :
  rows (select P df) = filter P (rows df).
Proof. by destruct df. Qed.

Lemma columns_select (P : record → Prop) `{!∀ r, Decision (P r)} (df : DataFrame) :
  columns (select P df) = columns df.
Proof. by destruct df. Qed.

Lemma columns_year_rows (company_data : DataFrame) (Y : Z) :
  columns (year_rows company_data Y) = columns company_data.
Proof. apply columns_select. Qed.

Lemma columns_company_rows (df : DataFrame) (id : string) :
  columns (company_rows df id) = columns df.
Proof. apply columns_select. Qed.

(** Masks that agree on the rows of the frame select the same frame. *)
Lemma select_ext (P Q : record → Prop) `{!∀ r, Decision (P r), !∀ r, Decision (Q r)}
    (df : DataFrame) :
  filter P (rows df) = filter Q (rows df) → select P df = select Q df.
Proof. destruct df as [|ys rs]; [done|]. simpl. by intros ->. Qed.

Lemma select_select (P Q : record → Prop) `{!∀ r, Decision (P r), !∀ r, Decision (Q r)}
    (df : DataFrame) :
  select P (select Q df) = select (λ r, P r ∧ Q r) df.
Proof. destruct df as [|ys rs]; [done|]. simpl. by rewrite list_filter_filter. Qed.

(** ** [unique] keeps the first occurrence of each value *)

Section unique.
Context `{EqDecision A}.
Implicit Types (l : list A) (a : A).

Lemma elem_of_unique l a : a ∈ unique l ↔ a ∈ l.
Proof.
  induction l as [|b l IH]; simpl; [done|].
  rewrite !elem_of_cons, list_elem_of_filter, IH.
  destruct (decide (a = b)); naive_solver.
Qed.

Lemma NoDup_unique l : NoDup (unique l).
Proof.
  induction l as [|b l IH]; simpl; [constructor|].
  constructor; [|by apply NoDup_filter].
  rewrite list_elem_of_filter. naive_solver.
Qed.

(** Filtering the input and filtering the distinct values agree. *)
Lemma unique_filter (P : A → Prop) `{∀ a, Decision (P a)} l :
  unique (filter P l) = filter P (unique l).
Proof.
  induction l as [|b l IH]; [done|]. simpl unique at 2.
  destruct (decide (P b)) as [Hb|Hb].
  - rewrite !filter_cons_True by done. simpl. f_equal.
    rewrite IH, !list_filter_filter. apply list_filter_iff. naive_solver.
  - rewrite !filter_cons_False by done. rewrite IH.
    rewrite list_filter_filter. apply list_filter_iff.
    intros a. split; [|naive_solver]. intros Ha. split; [done|]. by intros ->.
Qed.

(** A value seen before is dropped, a new one goes to the end. *)
Lemma unique_snoc l a :
  unique (l ++ [a]) = if decide (a ∈ l) then unique l else unique l ++ [a].
Proof.
  induction l as [|b l IH]; simpl; [done|]. rewrite IH.
  destruct (decide (a ∈ l)) as [Hin|Hin].
  - rewrite decide_True by (by right). done.
  - destruct (decide (a = b)) as [->|Hab].
    + rewrite decide_True by left.
      rewrite filter_app, filter_cons_False, filter_nil, app_nil_r by naive_solver.
      done.
    + rewrite decide_False by (rewrite elem_of_cons; naive_solver).
      by rewrite filter_app, filter_cons_True, filter_nil by done.
Qed.
End unique.

(** ** Row selection *)

Lemma rows_company_year (df : DataFrame) (id : string) (Y : Z) :
  rows (year_rows (company_rows df id) Y)
  = filter (λ r, assignee_id r = id ∧ cited_year r = Y) (rows df).
Proof.
  unfold year_rows, company_rows. rewrite !rows_select.
  rewrite list_filter_filter. apply list_filter_iff. naive_solver.
Qed.

Lemma is_empty_true (df : DataFrame) : is_empty df = true ↔ rows df = [].
Proof. unfold is_empty. destruct (rows df); naive_solver. Qed.

Lemma elem_of_unique_ids (df : DataFrame) (id : string) :
  id ∈ unique_ids df ↔ ∃ r, r ∈ rows df ∧ assignee_id r = id.
Proof.
  unfold unique_ids. rewrite elem_of_unique, list_elem_of_fmap. naive_solver.
Qed.

(** [iloc[0]] is only reached on a company that has a row. *)
Lemma company_rows_nonempty (df : DataFrame) (id : string) :
  id ∈ unique_ids df →
  ∃ r, head (rows (company_rows df id)) = Some r ∧ assignee_id r = id
       ∧ first_organization (company_rows df id) = raw_assignee_organization r.
Proof.
  rewrite elem_of_unique_ids. intros (r & Hr & Hid).
  assert (r ∈ rows (company_rows df id)) as Hin.
  { unfold company_rows. rewrite rows_select, list_elem_of_filter. done. }
  unfold first_organization.
  destruct (rows (company_rows df id)) as [|r0 rest] eqn:Hrows.
  { by apply elem_of_nil in Hin. }
  exists r0. split; [done|]. split; [|done].
  assert (r0 ∈ rows (company_rows df id)) as H0 by (rewrite Hrows; left).
  unfold company_rows in H0. rewrite rows_select in H0.
  apply list_elem_of_filter in H0. tauto.
Qed.

Lemma filter_ext_elem_of {A} (P Q : A → Prop)
    `{!∀ a, Decision (P a), !∀ a, Decision (Q a)} (l : list A) :
  (∀ a, a ∈ l → P a ↔ Q a) → filter P l = filter Q l.
Proof.
  induction l as [|b l IH]; intros HPQ; [done|].
  rewrite !filter_cons.
  rewrite IH by (intros a Ha; apply HPQ; by right).
  apply decide_ext, HPQ. left.
Qed.

Lemma filter_none {A} (P : A → Prop) `{!∀ a, Decision (P a)} (l : list A) :
  (∀ a, a ∈ l → ¬ P a) → filter P l = [].
Proof.
  induction l as [|b l IH]; intros HP; [done|].
  rewrite filter_cons_False by (apply HP; left).
  apply IH. intros a Ha. apply HP. by right.
Qed.

Lemma filter_all {A} (P : A → Prop) `{!∀ a, Decision (P a)} (l : list A) :
  (∀ a, a ∈ l → P a) → filter P l = l.
Proof.
  induction l as [|b l IH]; intros HP; [done|].
  rewrite filter_cons_True by (apply HP; left).
  f_equal. apply IH. intros a Ha. apply HP. by right.
Qed.

Lemma fmap_filter_preimage {A B} (f : A → B) (Q : B → Prop)
    `{!∀ b, Decision (Q b)} (l : list A) :
  f <$> filter (λ a, Q (f a)) l = filter Q (f <$> l).
Proof.
  induction l as [|a l IH]; [done|]. csimpl.
  rewrite !filter_cons. case_decide; csimpl; by rewrite IH.
Qed.

Lemma omap_filter_None {A B} (f : A → option B) (P : A → Prop)
    `{!∀ a, Decision (P a)} (l : list A) :
  (∀ a, ¬ P a → f a = None) → omap f (filter P l) = omap f l.
Proof.
  intros Hf. induction l as [|a l IH]; [done|].
  rewrite filter_cons. case_decide as Ha; csimpl.
  - by rewrite IH.
  - by rewrite (Hf a Ha), IH.
Qed.

Lemma fmap_ext_elem_of {A B} (f g : A → B) (l : list A) :
  (∀ a, a ∈ l → f a = g a) → f <$> l = g <$> l.
Proof.
  intros Hfg. apply list_fmap_ext. intros i a Hi. apply Hfg.
  by eapply list_elem_of_lookup_2.
Qed.

(** Grouping a list by a key that ranges over [ks] rearranges it. *)
Lemma partition_by_key {A K} `{EqDecision K} (key : A → K) (ks : list K) (l : list A) :
  NoDup ks → (∀ a, a ∈ l → key a ∈ ks) →
  concat ((λ k, filter (λ a, key a = k) l) <$> ks) ≡ₚ l.
Proof.
  intros Hks. revert l. induction Hks as [|k ks Hk Hks IH]; intros l Hl.
  - destruct l as [|a l]; [done|]. exfalso. eapply elem_of_nil, (Hl a). left.
  - csimpl.
    rewrite (fmap_ext_elem_of _ (λ k', filter (λ a, key a = k')
                                         (filter (λ a, ¬ key a = k) l)) ks).
    + rewrite IH.
      * apply filter_app_complement.
      * intros a Ha. apply list_elem_of_filter in Ha as [Hne Ha].
        specialize (Hl a Ha). apply elem_of_cons in Hl as [?|?]; done.
    + intros k' Hk'. symmetry. apply list_filter_filter_l.
      intros a -> ->. done.
Qed.

Lemma total_by_key {A K} `{EqDecision K} (f : A → Z) (key : A → K) (ks : list K)
    (l : list A) :
  NoDup ks → (∀ a, a ∈ l → key a ∈ ks) →
  total ((λ k, total (f <$> filter (λ a, key a = k) l)) <$> ks) = total (f <$> l).
Proof.
  intros Hks Hl.
  trans (total (f <$> concat ((λ k, filter (λ a, key a = k) l) <$> ks))).
  - by rewrite total_fmap_concat, <- list_fmap_compose.
  - by rewrite (partition_by_key key ks l Hks Hl).
Qed.

Lemma assignee_id_in_unique_ids (df : DataFrame) (r : record) :
  r ∈ rows df → assignee_id r ∈ unique_ids df.
Proof. intros Hr. apply elem_of_unique_ids. by exists r. Qed.

Lemma strictly_sorted_NoDup (l : list Z) : StronglySorted Z.lt l → NoDup l.
Proof.
  induction 1 as [|a l _ IH Hlt]; constructor; [|done].
  intros Ha. rewrite Forall_forall in Hlt. specialize (Hlt a Ha). lia.
Qed.

(** Selecting rows by a property of the company id selects companies. *)
Lemma unique_ids_select (Q : string → Prop) `{!∀ id, Decision (Q id)} (df : DataFrame) :
  unique_ids (select (λ r, Q (assignee_id r)) df) = filter Q (unique_ids df).
Proof.
  unfold unique_ids. rewrite rows_select.
  by rewrite fmap_filter_preimage, unique_filter.
Qed.

Lemma company_rows_select (Q : string → Prop) `{!∀ id, Decision (Q id)}
    (df : DataFrame) (id : string) :
  Q id → company_rows (select (λ r, Q (assignee_id r)) df) id = company_rows df id.
Proof.
  intros HQ. unfold company_rows. rewrite select_select.
  apply select_ext, list_filter_iff. naive_solver.
Qed.

Lemma citations_trace_no_rows `{!FloatSum} (df : DataFrame) (Y : Z) (id : string) :
  filter (λ r, assignee_id r = id ∧ cited_year r = Y) (rows df) = [] →
  citations_trace df Y id = None.
Proof.
  intros Hnone. unfold citations_trace.
  rewrite (proj2 (is_empty_true _)); [done|]. by rewrite rows_company_year.
Qed.

Lemma omap_ext_elem_of {A B} (f g : A → option B) (l : list A) :
  (∀ a, a ∈ l → f a = g a) → omap f l = omap g l.
Proof.
  induction l as [|b l IH]; intros Hfg; [done|]. csimpl.
  rewrite (Hfg b) by left. rewrite IH; [done|].
  intros a Ha. apply Hfg. by right.
Qed.

Lemma citations_trace_select `{!FloatSum} (Q : string → Prop) `{!∀ id, Decision (Q id)}
    (df : DataFrame) (Y : Z) (id : string) :
  Q id → citations_trace (select (λ r, Q (assignee_id r)) df) Y id = citations_trace df Y id.
Proof. intros HQ. unfold citations_trace. by rewrite company_rows_select. Qed.

(** Rows of companies the chart does not draw can be removed without
    changing the figure. *)
Lemma chart_select `{!FloatSum} (Q : string → Prop) `{!∀ id, Decision (Q id)}
    (df : DataFrame) (Y : Z) :
  (∀ id, ¬ Q id → citations_trace df Y id = None) →
  create_citations_to_year_chart (select (λ r, Q (assignee_id r)) df) Y
  = create_citations_to_year_chart df Y.
Proof.
  intros HQ. unfold create_citations_to_year_chart. f_equal.
  rewrite unique_ids_select.
  rewrite <- (omap_filter_None (citations_trace df Y) Q) by done.
  apply omap_ext_elem_of. intros id Hid.
  apply list_elem_of_filter in Hid as [Hid _].
  by apply citations_trace_select.
Qed.

(** ** Summary of patents assigned in the selected year *)

(** C3 (amended): the summary has one entry per company, in the order in
    which the companies first appear in the table; an entry carries the
    organization name of the company's first row and the [int64] sum of
    [patents_assigned] over the company's rows of the selected year. That
    count is the exact sum brought into the [int64] range by wrap-around:
    it is the exact sum whenever the exact sum lies in the range, and zero
    when the company has no row for the year. The companies are the
    distinct ids of the table. *)
Theorem get_patents_in_year_sums (df : DataFrame) (Y : Z) :
  get_patents_in_year df Y
  = (λ id, (first_organization (company_rows df id),
            sum (patents_assigned <$>
                   filter (λ r, assignee_id r = id ∧ cited_year r = Y) (rows df))))
      <$> unique (assignee_id <$> rows df)
  ∧ NoDup (unique (assignee_id <$> rows df))
  ∧ (∀ id, id ∈ unique (assignee_id <$> rows df) ↔ ∃ r, r ∈ rows df ∧ assignee_id r = id)
  ∧ ∀ i id entry,
      unique (assignee_id <$> rows df) !! i = Some id →
      get_patents_in_year df Y !! i = Some entry →
      let year_data := filter (λ r, assignee_id r = id ∧ cited_year r = Y) (rows df) in
      let exact := total (patents_assigned <$> year_data) in
      entry.2 = wrap64 exact
      ∧ in_int64 entry.2
      ∧ (in_int64 exact → entry.2 = exact)
      ∧ (year_data = [] → entry.2 = 0).
Proof.
  assert (get_patents_in_year df Y
          = (λ id, (first_organization (company_rows df id),
                    sum (patents_assigned <$>
                           filter (λ r, assignee_id r = id ∧ cited_year r = Y) (rows df))))
              <$> unique (assignee_id <$> rows df)) as Hentries.
  { unfold get_patents_in_year, unique_ids.
    apply list_fmap_ext. intros i id _. unfold patents_entry.
    destruct (is_empty _) eqn:Hempty.
    - apply is_empty_true in Hempty. rewrite rows_company_year in Hempty.
      by rewrite Hempty.
    - unfold column_sum. by rewrite rows_company_year. }
  split; [done|]. split; [apply NoDup_unique|]. split; [apply elem_of_unique_ids|].
  intros i id entry Hid Hentry year_data exact.
  rewrite Hentries, list_lookup_fmap, Hid in Hentry. injection Hentry as <-.
  cbn [snd]. fold year_data. rewrite sum_total. fold exact.
  split; [done|]. split; [apply wrap64_in_int64|].
  split; [apply wrap64_id|]. intros Hnone. unfold exact. by rewrite Hnone.
Qed.

(** C3 as stated fails: the two rows of Acme for 2015 have [2^63 - 1] and
    [1] patents; their sum is [2^63], and the count of the summary is
    [-2^63]. *)
Lemma get_patents_in_year_overflow_counterexample :
  get_patents_in_year overflow_table 2015 = [("Acme", - 2 ^ 63)]
  ∧ total (patents_assigned <$>
             filter (λ r, assignee_id r = "AAAAAAAA1234" ∧ cited_year r = 2015)
                    (rows overflow_table)) = 2 ^ 63
  ∧ ¬ (∀ i id entry,
         unique_ids overflow_table !! i = Some id →
         get_patents_in_year overflow_table 2015 !! i = Some entry →
         entry.2 = total (patents_assigned <$>
                            filter (λ r, assignee_id r = id ∧ cited_year r = 2015)
                                   (rows overflow_table))).
Proof.
  split; [vm_compute; reflexivity|]. split; [vm_compute; reflexivity|].
  intros Hall.
  specialize (Hall 0%nat "AAAAAAAA1234" ("Acme", - 2 ^ 63) eq_refl).
  assert (get_patents_in_year overflow_table 2015 !! 0%nat = Some ("Acme", - 2 ^ 63))
    as Hentry by (vm_compute; reflexivity).
  specialize (Hall Hentry). vm_compute in Hall. discriminate Hall.
Qed.

Lemma patents_entry_sum (df : DataFrame) (Y : Z) (id : string) :
  patents_entry df Y id
  = (first_organization (company_rows df id),
     sum (patents_assigned <$>
            filter (λ r, assignee_id r = id ∧ cited_year r = Y) (rows df))).
Proof.
  unfold patents_entry. destruct (is_empty _) eqn:Hempty.
  - apply (is_empty_true (year_rows _ _)) in Hempty.
    rewrite rows_company_year in Hempty. by rewrite Hempty.
  - unfold column_sum. by rewrite rows_company_year.
Qed.

(** Acme has one row for 2015 and none for 2017; Beta has none for either
    year. Both companies are listed each time. *)
Example get_patents_in_year_sample :
  get_patents_in_year sample_table 2015 = [("Acme", 10); ("Beta", 0)]
  ∧ get_patents_in_year sample_table 2016 = [("Acme", 8); ("Beta", 10)]
  ∧ get_patents_in_year sample_table 2017 = [("Acme", 0); ("Beta", 0)].
Proof. repeat split; vm_compute; reflexivity. Qed.

(** C2: a company of the table with no row for the selected year adds no
    trace to the citations chart (the figure is the one obtained from the
    table without that company) and still has its entry in the summary,
    with a count of exactly 0. *)
Theorem absent_year_chart_vs_summary `{!FloatSum} (df : DataFrame) (Y : Z) (id : string) (i : nat) :
  unique_ids df !! i = Some id →
  filter (λ r, assignee_id r = id ∧ cited_year r = Y) (rows df) = [] →
  citations_trace df Y id = None
  ∧ create_citations_to_year_chart (drop_company id df) Y
    = create_citations_to_year_chart df Y
  ∧ get_patents_in_year df Y !! i = Some (first_organization (company_rows df id), 0).
Proof.
  intros Hi Hnone.
  pose proof (citations_trace_no_rows df Y id Hnone) as Htrace.
  split; [done|]. split.
  - unfold drop_company.
    pose proof (chart_select (λ c, c ≠ id) df Y) as Hsel. apply Hsel.
    intros c Hc. destruct (decide (c = id)) as [->|]; [done|]. by destruct Hc.
  - unfold get_patents_in_year. rewrite list_lookup_fmap, Hi. simpl.
    unfold patents_entry.
    rewrite (proj2 (is_empty_true _)); [done|]. by rewrite rows_company_year.
Qed.

Lemma absent_year_chart_vs_summary_witness :
  citations_trace sample_table 2015 "BBBB" = None
  ∧ create_citations_to_year_chart (drop_company "BBBB" sample_table) 2015
    = create_citations_to_year_chart sample_table 2015
  ∧ get_patents_in_year sample_table 2015 !! 1%nat = Some ("Beta", 0).
Proof.
  apply (absent_year_chart_vs_summary sample_table 2015 "BBBB" 1); reflexivity.
Defined.

(** ** Grouping *)

Section groupby_keys.
Context {K V : Type} (cmp : K → K → comparison) (merge : V → V → V).
Hypothesis cmp_eq : ∀ a b, cmp a b = Eq → a = b.

Lemma group_add_elem_of_keys (k : K) (v : V) (g : list (K * V)) (k' : K) :
  k' ∈ (group_add cmp merge k v g).*1 ↔ k' = k ∨ k' ∈ g.*1.
Proof.
  induction g as [|[k0 v0] g IH]; simpl.
  - rewrite list_elem_of_singleton, elem_of_nil. tauto.
  - destruct (cmp k k0) eqn:Hcmp; simpl.
    + apply cmp_eq in Hcmp as ->. rewrite !elem_of_cons. tauto.
    + rewrite !elem_of_cons. simpl. tauto.
    + rewrite !elem_of_cons, IH. tauto.
Qed.

Lemma groupby_elem_of_keys {R} (key : R → K) (val : R → V) (rs : list R) (k : K) :
  k ∈ (groupby cmp merge key val rs).*1 ↔ k ∈ key <$> rs.
Proof.
  induction rs as [|r rs IH] using rev_ind.
  - done.
  - unfold groupby in *. rewrite foldl_app. simpl.
    rewrite group_add_elem_of_keys, IH, fmap_app, elem_of_app.
    simpl. rewrite list_elem_of_singleton. tauto.
Qed.
End groupby_keys.

(** ** Grouping by year *)

Section groupby_year.
Implicit Types (g : list (Z * Z)) (k v : Z).

Local Abbreviation add := (group_add Z.compare add64).

Lemma group_add_total k v g :
  wrap64 (total ((add k v g).*2)) = wrap64 (total (g.*2) + v).
Proof.
  induction g as [|[k0 v0] g IH]; [f_equal; simpl; lia|].
  cbn [group_add]. destruct (k ?= k0); rewrite !fmap_cons, !total_cons; cbn [snd].
  - unfold add64. rewrite wrap64_add_l. f_equal. lia.
  - f_equal. lia.
  - rewrite <- wrap64_add_r, IH, wrap64_add_r. f_equal. lia.
Qed.

Lemma group_add_sum k v g : sum ((add k v g).*2) = add64 (sum (g.*2)) v.
Proof.
  rewrite !sum_total. unfold add64. rewrite wrap64_add_l. apply group_add_total.
Qed.

Lemma group_add_keys k v g k' :
  k' ∈ (add k v g).*1 → k' = k ∨ k' ∈ g.*1.
Proof.
  induction g as [|[k0 v0] g IH]; simpl.
  - rewrite list_elem_of_singleton. auto.
  - destruct (Z.compare_spec k k0); simpl; rewrite !elem_of_cons; naive_solver.
Qed.

Lemma group_add_sorted k v g :
  StronglySorted Z.lt (g.*1) → StronglySorted Z.lt ((add k v g).*1).
Proof.
  induction g as [|[k0 v0] g IH]; simpl; intros Hg.
  - repeat constructor.
  - apply StronglySorted_cons in Hg as [Hlt Hg].
    destruct (Z.compare_spec k k0) as [->|Hk|Hk]; simpl.
    + by apply StronglySorted_cons.
    + apply StronglySorted_cons. split; [|by apply StronglySorted_cons].
      constructor; [done|]. eapply Forall_impl; [exact Hlt|]. simpl. lia.
    + apply StronglySorted_cons. split; [|by apply IH].
      apply Forall_forall. intros k' Hk'.
      apply group_add_keys in Hk' as [->|Hk']; [done|].
      by eapply Forall_forall in Hlt.
Qed.

(** The values of the groups stay in the range. *)
Lemma group_add_in_int64 k v g :
  in_int64 v → Forall in_int64 (g.*2) → Forall in_int64 ((add k v g).*2).
Proof.
  intros Hv. induction g as [|[k0 v0] g IH]; intros Hg.
  - simpl. constructor; [done|constructor].
  - rewrite fmap_cons in Hg. apply Forall_cons in Hg as [Hv0 Hg].
    cbn [group_add]. destruct (k ?= k0); rewrite ?fmap_cons; cbn [snd].
    + constructor; [apply wrap64_in_int64|done].
    + constructor; [done|]. by constructor.
    + constructor; [done|]. by apply IH.
Qed.

Lemma groupby_snoc {R} (key val : R → Z) (rs : list R) (r : R) :
  groupby Z.compare add64 key val (rs ++ [r])
  = add (key r) (val r) (groupby Z.compare add64 key val rs).
Proof. unfold groupby. by rewrite foldl_app. Qed.

Lemma groupby_in_int64 {R} (key val : R → Z) (rs : list R) :
  (∀ r, in_int64 (val r)) →
  Forall in_int64 ((groupby Z.compare add64 key val rs).*2).
Proof.
  intros Hval. induction rs as [|r rs IH] using rev_ind; [constructor|].
  rewrite groupby_snoc. by apply group_add_in_int64.
Qed.

Lemma groupby_sum {R} (key val : R → Z) (rs : list R) :
  sum ((groupby Z.compare add64 key val rs).*2) = sum (val <$> rs).
Proof.
  induction rs as [|r rs IH] using rev_ind; [done|].
  rewrite groupby_snoc, group_add_sum, IH, fmap_app, sum_app.
  rewrite (sum_total (val <$> [r])). unfold add64.
  rewrite wrap64_add_r. f_equal. simpl. lia.
Qed.

Lemma groupby_sorted {R} (key val : R → Z) (rs : list R) :
  StronglySorted Z.lt ((groupby Z.compare add64 key val rs).*1).
Proof.
  induction rs as [|r rs IH] using rev_ind; [constructor|].
  rewrite groupby_snoc. by apply group_add_sorted.
Qed.

(** Rows with strictly increasing years are already in [sort_values]
    order: the sort returns them unchanged. *)
Lemma strictly_sorted_key_inj g (a b : Z * Z) :
  StronglySorted Z.lt (g.*1) → a ∈ g → b ∈ g → a.1 = b.1 → a = b.
Proof.
  induction g as [|c g IH]; simpl; intros Hg Ha Hb Hab.
  { by apply elem_of_nil in Ha. }
  apply StronglySorted_cons in Hg as [Hlt Hg].
  rewrite Forall_forall in Hlt.
  apply elem_of_cons in Ha as [->|Ha]; apply elem_of_cons in Hb as [->|Hb].
  - done.
  - specialize (Hlt (b.1)). rewrite list_elem_of_fmap in Hlt.
    assert (c.1 < b.1) by eauto. lia.
  - specialize (Hlt (a.1)). rewrite list_elem_of_fmap in Hlt.
    assert (c.1 < a.1) by eauto. lia.
  - by apply IH.
Qed.

Lemma group_add_key_total k v g k' :
  wrap64 (total ((filter (λ p, p.1 = k') (add k v g)).*2))
  = wrap64 (total ((filter (λ p, p.1 = k') g).*2)
            + (if decide (k' = k) then v else 0)).
Proof.
  induction g as [|[k0 v0] g IH]; cbn [group_add].
  - rewrite filter_cons, filter_nil. cbn [fst].
    destruct (decide (k = k')), (decide (k' = k)); try lia; f_equal; simpl; lia.
  - destruct (Z.compare_spec k k0) as [->|Hk|Hk]; rewrite !filter_cons; cbn [fst].
    + destruct (decide (k0 = k')), (decide (k' = k0)); try lia.
      * rewrite !fmap_cons, !total_cons. cbn [snd]. unfold add64.
        rewrite wrap64_add_l. f_equal. lia.
      * f_equal. lia.
    + destruct (decide (k = k')), (decide (k' = k)), (decide (k0 = k'));
        try lia; rewrite ?fmap_cons, ?total_cons; cbn [snd]; f_equal; lia.
    + destruct (decide (k0 = k')).
      * rewrite !fmap_cons, !total_cons. cbn [snd].
        rewrite <- wrap64_add_r, IH, wrap64_add_r. f_equal. lia.
      * exact IH.
Qed.

Lemma groupby_key_sum {R} (key val : R → Z) (rs : list R) k :
  sum ((filter (λ p, p.1 = k) (groupby Z.compare add64 key val rs)).*2)
  = sum (val <$> filter (λ r, key r = k) rs).
Proof.
  rewrite !sum_total.
  induction rs as [|r rs IH] using rev_ind; [done|].
  rewrite groupby_snoc, group_add_key_total.
  rewrite <- wrap64_add_l, IH, wrap64_add_l.
  rewrite filter_app, fmap_app, total_app, filter_cons, filter_nil.
  destruct (decide (k = key r)), (decide (key r = k)); try done; f_equal; simpl; lia.
Qed.

(** With strictly increasing years, the group of a year is one row. *)
Lemma sorted_key_sum g k v :
  StronglySorted Z.lt (g.*1) → (k, v) ∈ g → in_int64 v →
  sum ((filter (λ p, p.1 = k) g).*2) = v.
Proof.
  induction g as [|c g IH]; simpl; intros Hg Hin Hv.
  { by apply elem_of_nil in Hin. }
  apply StronglySorted_cons in Hg as [Hlt Hg].
  apply elem_of_cons in Hin as [<-|Hin].
  - rewrite filter_cons_True by done. rewrite filter_none.
    + change (sum [v] = v). rewrite sum_cons. by apply add64_0_r.
    + intros p Hp Hk. rewrite Forall_forall in Hlt.
      specialize (Hlt (p.1)). rewrite list_elem_of_fmap in Hlt.
      assert (k < p.1) by eauto. lia.
  - rewrite filter_cons_False; [by apply IH|].
    intros Hk. rewrite Forall_forall in Hlt.
    specialize (Hlt k). rewrite list_elem_of_fmap in Hlt.
    assert (c.1 < k) by (apply Hlt; by exists (k, v)). lia.
Qed.

Global Instance by_year_trans : Transitive by_year.
Proof. intros a b c. unfold by_year. lia. Qed.

Global Instance by_year_total : Total by_year.
Proof. intros a b. unfold by_year. lia. Qed.

Lemma sort_values_year_sorted g :
  StronglySorted Z.lt (g.*1) → sort_values_year g = g.
Proof.
  intros Hg. unfold sort_values_year. symmetry.
  apply (StronglySorted_unique_strong by_year).
  - intros a b Ha Hb Hab Hba.
    apply (strictly_sorted_key_inj g); [done|done| |unfold by_year in *; lia].
    by rewrite <- (merge_sort_Permutation by_year g).
  - clear -Hg. induction g as [|c g IH]; [constructor|].
    simpl in Hg. apply StronglySorted_cons in Hg as [Hlt Hg].
    constructor; [by apply IH|].
    rewrite Forall_fmap in Hlt. eapply Forall_impl; [exact Hlt|].
    intros a. unfold by_year. simpl. lia.
  - apply StronglySorted_merge_sort; apply _.
  - by rewrite merge_sort_Permutation.
Qed.
End groupby_year.

(** ** Timelines *)

Lemma timeline_trace_total (col : record → Z) (df : DataFrame) (id : string) :
  (∀ r, in_int64 (col r)) →
  timeline_of col df id (timeline_trace col df id).
Proof.
  intros Hcol.
  unfold timeline_of, timeline_trace, groupby_year_sum, company_rows.
  rewrite rows_select. cbn [trace_x trace_y].
  rewrite sort_values_year_sorted by apply groupby_sorted.
  set (g := groupby Z.compare add64 cited_year col
              (filter (λ r, assignee_id r = id) (rows df))).
  split; [apply groupby_sum|]. split; [apply groupby_sorted|].
  split; [by rewrite !length_fmap|]. split.
  - intros y. unfold g.
    rewrite (groupby_elem_of_keys Z.compare add64) by apply Z.compare_eq.
    rewrite list_elem_of_fmap. setoid_rewrite list_elem_of_filter. naive_solver.
  - intros j y v Hx Hy. rewrite list_lookup_fmap in Hx, Hy.
    destruct (g !! j) as [[y' v']|] eqn:Hj; [|done].
    simpl in Hx, Hy. injection Hx as ->. injection Hy as ->.
    apply list_elem_of_lookup_2 in Hj.
    assert (in_int64 v) as Hv.
    { pose proof (groupby_in_int64 cited_year col
                    (filter (λ r, assignee_id r = id) (rows df)) Hcol) as Hg.
      rewrite Forall_forall in Hg. apply Hg, list_elem_of_fmap. by exists (y, v). }
    rewrite <- (sorted_key_sum g y v) by (done || apply groupby_sorted).
    unfold g. rewrite groupby_key_sum, list_filter_filter.
    f_equal. f_equal. apply list_filter_iff. naive_solver.
Qed.

(** With exact per-year sums in the range the trace is the exact one. *)
Lemma timeline_trace_exact (col : record → Z) (df : DataFrame) (id : string) :
  (∀ r, in_int64 (col r)) →
  year_totals_fit col df id →
  exact_timeline_of col df id (timeline_trace col df id).
Proof.
  intros Hcol Hfit.
  destruct (timeline_trace_total col df id Hcol) as (_ & Hsorted & Hlen & Hyears & Hvalue).
  set (s := timeline_trace col df id) in *.
  unfold year_totals_fit in Hfit. rewrite Forall_forall in Hfit.
  assert (∀ j y v, trace_x s !! j = Some y → trace_y s !! j = Some v →
            v = total (col <$>
                  filter (λ r, assignee_id r = id ∧ cited_year r = y) (rows df)))
    as Hexact.
  { intros j y v Hy Hv. rewrite (Hvalue j y v Hy Hv).
    apply sum_exact.
    apply list_elem_of_lookup_2, Hyears in Hy as (r & Hr & _ & <-).
    by apply Hfit. }
  split; [|done].
  assert (trace_y s
          = (λ y, total (col <$> filter (λ r, cited_year r = y)
                                   (filter (λ r, assignee_id r = id) (rows df))))
              <$> trace_x s) as ->.
  { apply list_eq. intros j. rewrite list_lookup_fmap.
    destruct (trace_x s !! j) as [y|] eqn:Hy.
    - destruct (lookup_lt_is_Some_2 (trace_y s) j) as [v Hv].
      { rewrite <- Hlen. by eapply lookup_lt_Some. }
      rewrite Hv, (Hexact j y v Hy Hv). cbn [fmap option_fmap option_map].
      do 3 f_equal.
      rewrite list_filter_filter. apply list_filter_iff. naive_solver.
    - apply lookup_ge_None. apply lookup_ge_None in Hy. lia. }
  apply total_by_key; [by apply strictly_sorted_NoDup|].
  intros r Hr. apply list_elem_of_filter in Hr as [Hid Hr].
  apply Hyears. by exists r.
Qed.

(** C4 (amended): for the i-th company of the table, the i-th trace of the
    patents timeline and the i-th trace of the citations timeline have
    strictly increasing years, so no year occurs twice: the rows of one
    year make one point. The value of a point is the [int64] sum of
    [patents_assigned] (of [total_citations]) over the company's rows of
    that year, and the [int64] sum of the values of a trace is the [int64]
    sum of the column over all rows of the company. When no year's exact
    sum leaves the [int64] range, the values are the exact sums and add up
    to the exact column total of the company. *)
Theorem timelines_keep_totals (df : DataFrame) (id : string) (i : nat) :
  unique_ids df !! i = Some id →
  ∃ p c,
    fig_data (create_patents_timeline df) !! i = Some p
    ∧ fig_data (create_citations_timeline df) !! i = Some c
    ∧ timeline_of patents_assigned df id p
    ∧ timeline_of total_citations df id c
    ∧ (year_totals_fit patents_assigned df id →
       exact_timeline_of patents_assigned df id p)
    ∧ (year_totals_fit total_citations df id →
       exact_timeline_of total_citations df id c).
Proof.
  intros Hi.
  exists (timeline_trace patents_assigned df id), (timeline_trace total_citations df id).
  cbn [create_patents_timeline create_citations_timeline fig_data].
  rewrite !list_lookup_fmap, Hi.
  split; [done|]. split; [done|].
  split; [apply timeline_trace_total; intros r; apply record_in_int64|].
  split; [apply timeline_trace_total; intros r; apply record_in_int64|].
  split; apply timeline_trace_exact; intros r; apply record_in_int64.
Qed.

Lemma timelines_keep_totals_witness :
  ∃ p c,
    fig_data (create_patents_timeline sample_table) !! 1%nat = Some p
    ∧ fig_data (create_citations_timeline sample_table) !! 1%nat = Some c
    ∧ timeline_of patents_assigned sample_table "BBBB" p
    ∧ timeline_of total_citations sample_table "BBBB" c
    ∧ exact_timeline_of patents_assigned sample_table "BBBB" p
    ∧ exact_timeline_of total_citations sample_table "BBBB" c.
Proof.
  destruct (timelines_keep_totals sample_table "BBBB" 1 eq_refl)
    as (p & c & Hp & Hc & Htp & Htc & Hep & Hec).
  exists p, c. split; [done|]. split; [done|]. split; [done|]. split; [done|].
  split.
  - apply Hep. refine (bool_decide_unpack _ _). vm_compute. exact I.
  - apply Hec. refine (bool_decide_unpack _ _). vm_compute. exact I.
Defined.

(** C4 as stated fails: the two rows of Acme for 2015 have [2^63 - 1] and
    [1] patents, which add up to [2^63]; the one point of the patents
    timeline has the value [-2^63]. *)
Lemma timeline_overflow_counterexample :
  fig_data (create_patents_timeline overflow_table)
  = [mkScatter [2015] [- 2 ^ 63] "Acme"]
  ∧ total (patents_assigned <$>
             filter (λ r, assignee_id r = "AAAAAAAA1234") (rows overflow_table))
    = 2 ^ 63
  ∧ ¬ (∀ i id p,
         unique_ids overflow_table !! i = Some id →
         fig_data (create_patents_timeline overflow_table) !! i = Some p →
         total (trace_y p)
         = total (patents_assigned <$>
                    filter (λ r, assignee_id r = id) (rows overflow_table))).
Proof.
  split; [vm_compute; reflexivity|]. split; [vm_compute; reflexivity|].
  intros Hall.
  specialize (Hall 0%nat "AAAAAAAA1234" (mkScatter [2015] [- 2 ^ 63] "Acme") eq_refl).
  assert (fig_data (create_patents_timeline overflow_table) !! 0%nat
          = Some (mkScatter [2015] [- 2 ^ 63] "Acme")) as Hp
    by (vm_compute; reflexivity).
  specialize (Hall Hp). vm_compute in Hall. discriminate Hall.
Qed.

(** Two rows of one company for the same year, with 4 and 6 patents, make a
    single point of value 10. *)
Example patents_timeline_merges_rows :
  fig_data (create_patents_timeline sample_table)
  = [mkScatter [2015; 2016] [10; 8] "Acme"; mkScatter [2016] [10] "Beta"].
Proof. vm_compute. reflexivity. Qed.

(** ** Company catalog *)


Lemma pair_compare_eq (a b : string * string) : pair_compare a b = Eq → a = b.
Proof.
  destruct a as [a1 a2], b as [b1 b2]. unfold pair_compare. simpl.
  destruct (String.compare a1 b1) eqn:H1; try discriminate.
  intros H2. apply String.compare_eq_iff in H1, H2. by subst.
Qed.

Global Instance by_display_name_trans : Transitive by_display_name.
Proof. intros a b c. unfold by_display_name. apply transitivity. Qed.

Global Instance by_display_name_total : Total by_display_name.
Proof. intros a b. unfold by_display_name. apply (@base.total _ String.le _). Qed.

(** [s[:n]] is a prefix of [s] of [n] characters, or all of [s]. *)
Lemma prefix_spec (n : nat) (s : string) :
  ∃ rest, s = Py.prefix n s +:+ rest
          ∧ String.length (Py.prefix n s) = Nat.min n (String.length s).
Proof.
  unfold Py.prefix. revert n. induction s as [|c s IH]; intros [|n]; simpl.
  - by exists "".
  - by exists "".
  - by exists (String c s).
  - destruct (IH n) as (rest & Hs & Hlen). exists rest.
    split; [|by rewrite Hlen]. unfold String.app in *. simpl. by rewrite <- Hs.
Qed.

(** C5: whatever the order of the rows, the catalog is sorted by display
    name in ascending character-wise (case-sensitive) order; it has a row for
    exactly the (id, organization) pairs that occur in the table, and the
    display name of a row is the organization followed by [" ("], the first
    8 characters of the id and ["...)"]. *)
Theorem get_company_list_sorted (df : DataFrame) :
  StronglySorted (λ a b, String.le a.2 b.2) (get_company_list df)
  ∧ (∀ row, row ∈ get_company_list df ↔
       ∃ r, r ∈ rows df
            ∧ row = (assignee_id r,
                     raw_assignee_organization r +:+ " (" +:+
                       String.substring 0 8 (assignee_id r) +:+ "...)")).
Proof.
  split.
  - apply (StronglySorted_merge_sort by_display_name).
  - intros row. unfold get_company_list.
    rewrite merge_sort_Permutation, list_elem_of_fmap. split.
    + intros ([[id org] n] & -> & Hg). simpl.
      assert ((id, org) ∈ (groupby pair_compare Z.add
                (λ r, (assignee_id r, raw_assignee_organization r))
                (λ _, 1) (rows df)).*1) as Hk.
      { apply list_elem_of_fmap. by exists (id, org, n). }
      apply (groupby_elem_of_keys _ _ pair_compare_eq) in Hk.
      apply list_elem_of_fmap in Hk as (r & [= -> ->] & Hr).
      by exists r.
    + intros (r & Hr & ->).
      assert ((assignee_id r, raw_assignee_organization r)
                ∈ (groupby pair_compare Z.add
                     (λ r, (assignee_id r, raw_assignee_organization r))
                     (λ _, 1) (rows df)).*1) as Hk.
      { apply (groupby_elem_of_keys _ _ pair_compare_eq).
        apply list_elem_of_fmap. by exists r. }
      apply list_elem_of_fmap in Hk as ([[id org] n] & [= -> ->] & Hg).
      by exists (id, org, n).
Qed.

(** Upper case sorts before lower case, and the order is by character
    codes, not alphabetical. *)
Example catalog_order_is_case_sensitive :
  get_company_list
    (read_table []
       [mkRecord "id-1" "acme" 2015 1 1 ∅ I; mkRecord "id-2" "Zeta" 2015 1 1 ∅ I;
        mkRecord "id-1" "acme" 2016 1 1 ∅ I])
  = [("id-2", "Zeta (id-2...)"); ("id-1", "acme (id-1...)")].
Proof. vm_compute. reflexivity. Qed.

(** ** The callback *)

Lemma update_dashboard_guard `{!FloatSum} (st : AppState)
    (selected_companies : option (list string)) (selected_year : option Z)
    (active_tab : string) :
  truthy_companies selected_companies = false ∨ truthy_year selected_year = false →
  update_dashboard st selected_companies selected_year active_tab
  = Returned (Text prompt, Text "").
Proof.
  unfold update_dashboard. intros [-> | ->]; simpl; [done|].
  by rewrite orb_true_r.
Qed.

(** C6: when no company is selected (the value is [None] or the empty
    list) or no year is selected, the callback returns the prompt and empty
    content, whatever the table and the tab are; nothing is read from the
    table and nothing is raised. *)
Theorem update_dashboard_awaits_input `{!FloatSum} (st : AppState)
    (selected_companies : option (list string)) (selected_year : option Z)
    (active_tab : string) :
  selected_companies = None ∨ selected_companies = Some [] ∨ selected_year = None →
  update_dashboard st selected_companies selected_year active_tab
  = Returned (Text "Please select companies and a year to analyze.", Text "").
Proof.
  intros Hunset. apply update_dashboard_guard.
  destruct Hunset as [-> | [-> | ->]]; auto.
Qed.

Lemma update_dashboard_awaits_input_witness :
  update_dashboard sample_state (Some []) (Some 2015) "patents-timeline"
  = Returned (Text "Please select companies and a year to analyze.", Text "").
Proof.
  apply (update_dashboard_awaits_input sample_state (Some []) (Some 2015)).
  right. left. reflexivity.
Defined.

(** With companies and a year selected the callback does aggregate. *)
Example update_dashboard_sample :
  update_dashboard sample_state (Some ["BBBB"]) (Some 2016)
                   "patents-timeline"
  = Returned (SummaryDiv 2016 [("Beta", 10)],
              Graph (mkFigure [mkScatter [2016] [10] "Beta"]
                              "Patents Assigned by Year - Company Comparison")).
Proof. vm_compute. reflexivity. Qed.

(** ** Start-up without the CSV file *)

(** C7 (amended): when the file is missing ([FileNotFoundError]), start-up
    does not fail: it returns the state with an empty table, an empty
    catalog and no years, in which both dropdowns have no option and no
    initial selection, and the callback returns the prompt, on every tab
    and without an exception, for every selection whose companies or whose
    year are taken from those dropdowns, hence for every selection a user
    can make. That is the only failure start-up recovers from: any other
    exception raised while the file is read leaves start-up as it is, and
    there is no state to run with. *)
Theorem startup_without_file `{!FloatSum} (selected_companies : option (list string))
    (selected_year : option Z) (active_tab : string) :
  (∀ c, c ∈ default [] selected_companies →
        c ∈ (options (company_dropdown fallback_state)).*2)
  ∨ (∀ y, selected_year = Some y →
          y ∈ (options (year_dropdown fallback_state)).*2) →
  startup (Raised FileNotFoundError) = Returned fallback_state
  ∧ (∀ e, startup (Raised e) = Returned fallback_state ↔ e = FileNotFoundError)
  ∧ (∀ e, e ≠ FileNotFoundError → startup (Raised e) = Raised e)
  ∧ df fallback_state = empty_frame
  ∧ companies fallback_state = []
  ∧ company_dropdown fallback_state = mkDropdown [] []
  ∧ year_dropdown fallback_state = mkDropdown [] None
  ∧ update_dashboard fallback_state selected_companies selected_year active_tab
    = Returned (Text prompt, Text "").
Proof.
  intros Hselectable.
  split; [done|]. split.
  { intros e. split; [by destruct e|by intros ->]. }
  split. { intros e He. by destruct e. }
  split; [done|]. split; [done|]. split; [done|]. split; [done|].
  apply update_dashboard_guard.
  destruct Hselectable as [Hcompanies | Hyear].
  - left. destruct selected_companies as [[|c ids]|]; [done| |done].
    specialize (Hcompanies c). simpl in Hcompanies.
    exfalso. eapply elem_of_nil, Hcompanies. left.
  - right. destruct selected_year as [y|]; [|done].
    specialize (Hyear y eq_refl). simpl in Hyear. by apply elem_of_nil in Hyear.
Qed.

Lemma startup_without_file_witness :
  startup (Raised FileNotFoundError) = Returned fallback_state
  ∧ (∀ e, startup (Raised e) = Returned fallback_state ↔ e = FileNotFoundError)
  ∧ (∀ e, e ≠ FileNotFoundError → startup (Raised e) = Raised e)
  ∧ df fallback_state = empty_frame
  ∧ companies fallback_state = []
  ∧ company_dropdown fallback_state = mkDropdown [] []
  ∧ year_dropdown fallback_state = mkDropdown [] None
  ∧ update_dashboard fallback_state (Some []) None "citations-timeline"
    = Returned (Text prompt, Text "").
Proof.
  apply (startup_without_file (Some []) None "citations-timeline").
  right. intros y Hy. discriminate Hy.
Defined.

(** C7 as stated fails: a file that is there and cannot be opened, is empty
    or cannot be parsed is a table that cannot be loaded, and start-up ends
    with the exception instead of continuing with an empty table. *)
Lemma startup_unreadable_counterexample :
  startup (Raised PermissionError) = Raised PermissionError
  ∧ startup (Raised EmptyDataError) = Raised EmptyDataError
  ∧ startup (Raised ParserError) = Raised ParserError
  ∧ ¬ (∀ e, ∃ st, startup (Raised e) = Returned st
                  ∧ df st = empty_frame ∧ companies st = []).
Proof.
  split; [done|]. split; [done|]. split; [done|].
  intros Hall. destruct (Hall ParserError) as (st & Hst & _). discriminate Hst.
Qed.

(** The empty dropdowns are what keeps the callback away from the table: a
    call with values they do not offer reaches [df['assignee_id']] on a
    frame without columns. *)
Example callback_on_empty_frame :
  update_dashboard fallback_state (Some ["AAAAAAAA1234"]) (Some 2015) "patents-timeline"
  = Raised (KeyError "assignee_id").
Proof. reflexivity. Qed.

(** With the file in place start-up builds the catalog and the years. *)
Example startup_sample :
  startup (Returned sample_table) = Returned sample_state
  ∧ company_dropdown sample_state
    = mkDropdown [("Acme (AAAAAAAA...)", "AAAAAAAA1234"); ("Beta (BBBB...)", "BBBB")]
                 ["AAAAAAAA1234"]
  ∧ year_dropdown sample_state
    = mkDropdown [("2015", 2015); ("2016", 2016)] (Some 2015).
Proof. repeat split; vm_compute; reflexivity. Qed.

(** ** Citations to the selected year *)

Lemma omap_fmap_None {A B C} (f : B → option C) (g : A → B) (l : list A) :
  (∀ a, a ∈ l → f (g a) = None) → omap f (g <$> l) = [].
Proof.
  induction l as [|b l IH]; intros Hf; [done|]. csimpl.
  rewrite (Hf b) by left. apply IH. intros a Ha. apply Hf. by right.
Qed.

Lemma seqZ_strictly_sorted (m n : Z) : StronglySorted Z.lt (seqZ m n).
Proof.
  destruct (decide (n ≤ 0)) as [Hn|Hn].
  { rewrite seqZ_nil by done. constructor. }
  rewrite <- (Z2Nat.id n) by lia. generalize (Z.to_nat n) as k. clear.
  intros k. revert m. induction k as [|k IH]; intros m.
  - rewrite seqZ_nil by done. constructor.
  - rewrite seqZ_cons by lia. apply StronglySorted_cons. split.
    + apply Forall_seqZ. lia.
    + replace (Z.pred (Z.of_nat (S k))) with (Z.of_nat k) by lia. apply IH.
Qed.

(** Without a column for any year up to the horizon the inner loop makes
    no point. *)
Lemma citations_by_year_no_columns `{!FloatSum} (year_data : DataFrame) (Y : Z) :
  (∀ y, Y < y ≤ horizon → Py.str y ∉ columns year_data) →
  citations_by_year year_data Y = [].
Proof.
  intros Hcols. unfold citations_by_year, Py.range.
  apply omap_fmap_None. intros y Hy. apply elem_of_seqZ in Hy.
  rewrite bool_decide_eq_false_2; [done|].
  apply Hcols. unfold horizon. lia.
Qed.

Lemma omap_fmap_filter {A B C} (g : A → B) (P : B → Prop) `{!∀ b, Decision (P b)}
    (h : B → C) (l : list A) :
  omap (λ b, if bool_decide (P b) then Some (h b) else None) (g <$> l)
  = (λ a, h (g a)) <$> filter (λ a, P (g a)) l.
Proof.
  induction l as [|a l IH]; [done|]. csimpl. rewrite filter_cons.
  case_bool_decide; rewrite ?decide_True, ?decide_False by done; csimpl;
    by rewrite IH.
Qed.

Lemma filter_strictly_sorted (P : Z → Prop) `{!∀ y, Decision (P y)} (l : list Z) :
  StronglySorted Z.lt l → StronglySorted Z.lt (filter P l).
Proof.
  induction l as [|a l IH]; intros Hl; [constructor|].
  apply StronglySorted_cons in Hl as [Hlt Hl].
  rewrite filter_cons. case_decide; [|by apply IH].
  apply StronglySorted_cons. split; [|by apply IH].
  apply Forall_forall. intros y Hy. apply list_elem_of_filter in Hy as [_ Hy].
  by eapply Forall_forall in Hlt.
Qed.

(** The inner loop keeps, in order, the years whose label is a column. *)
Lemma citations_by_year_filter `{!FloatSum} (year_data : DataFrame) (Y : Z) :
  citations_by_year year_data Y
  = (λ y, (y, year_column_sum (Py.str y) year_data))
      <$> filter (λ y, Py.str y ∈ columns year_data) (seqZ (Y + 1) (horizon - Y)).
Proof.
  unfold citations_by_year, Py.range.
  replace (2026 - (Y + 1)) with (horizon - Y) by (unfold horizon; lia).
  etrans; [exact (omap_fmap_filter Py.str (λ c, c ∈ columns year_data)
                    (λ c, (Py.int c, year_column_sum c year_data)) _)|].
  apply list_fmap_ext. intros i y _. simpl. by rewrite int_str.
Qed.

Lemma citations_trace_Some `{!FloatSum} (df : DataFrame) (Y : Z) (id : string) (s : Scatter) :
  citations_trace df Y id = Some s →
  let xs := filter (λ y, Py.str y ∈ columns df) (seqZ (Y + 1) (horizon - Y)) in
  rows (year_rows (company_rows df id) Y) ≠ [] ∧ xs ≠ []
  ∧ s = mkScatter xs
          ((λ y, year_column_sum (Py.str y) (year_rows (company_rows df id) Y)) <$> xs)
          (first_organization (company_rows df id)).
Proof.
  intros Htrace xs. unfold citations_trace in Htrace.
  destruct (is_empty _) eqn:Hempty; [done|].
  rewrite citations_by_year_filter in Htrace.
  rewrite columns_year_rows, columns_company_rows in Htrace.
  fold xs in Htrace.
  split. { intros Hrows. apply (is_empty_true (year_rows _ _)) in Hrows. congruence. }
  destruct (_ <$> xs) as [|p ps] eqn:Hpoints; [done|].
  split. { intros Hnil. by rewrite Hnil in Hpoints. }
  rewrite <- Hpoints in Htrace. clear Hpoints p ps.
  injection Htrace as <-. f_equal.
  - rewrite <- list_fmap_compose.
    rewrite <- (list_fmap_id xs) at 2. by apply list_fmap_ext.
  - rewrite <- list_fmap_compose. by apply list_fmap_ext.
Qed.

(** ** Sums of a per-year column *)

Lemma total_zero {A} (f : A → Z) (l : list A) :
  (∀ a, a ∈ l → f a = 0) → total (f <$> l) = 0.
Proof.
  induction l as [|b l IH]; intros Hf; [done|].
  rewrite fmap_cons, total_cons, (Hf b) by left.
  rewrite IH; [done|]. intros a Ha. apply Hf. by right.
Qed.

(** Counting an empty cell as zero and leaving it out give the same sum. *)
Lemma total_cells_default (label : string) (rs : list record) :
  total ((λ r, default 0 (year_cells r !! label)) <$> rs)
  = total (omap (λ r, year_cells r !! label) rs).
Proof.
  induction rs as [|r rs IH]; [done|].
  rewrite fmap_cons, total_cons, IH. csimpl.
  destruct (year_cells r !! label); [by rewrite total_cons|done].
Qed.

Lemma total_abs_cells (label : string) (rs : list record) :
  total ((λ r, Z.abs (default 0 (year_cells r !! label))) <$> rs)
  = total (Z.abs <$> omap (λ r, year_cells r !! label) rs).
Proof.
  induction rs as [|r rs IH]; [done|].
  rewrite fmap_cons, total_cons, IH. csimpl.
  destruct (year_cells r !! label); [by rewrite fmap_cons, total_cons|done].
Qed.

(** The sum of a per-year column is the exact sum of its cells while their
    absolute values add up to at most [2^53], whichever type the column
    has. *)
Lemma year_column_sum_exact `{!FloatSum} (label : string) (df : DataFrame) :
  total (Z.abs <$> omap (λ r, year_cells r !! label) (rows df)) ≤ 2 ^ 53 →
  year_column_sum label df = total (omap (λ r, year_cells r !! label) (rows df)).
Proof.
  intros Hcells. unfold year_column_sum. destruct (dtype_of label df).
  - rewrite sum_exact; [apply total_cells_default|].
    rewrite total_cells_default.
    pose proof (total_abs (omap (λ r, year_cells r !! label) (rows df))).
    unfold in_int64. lia.
  - by apply float_sum_exact.
Qed.

(** A column whose cells are zero or empty sums to zero. *)
Lemma year_column_sum_zero `{!FloatSum} (label : string) (df : DataFrame) :
  (∀ r, r ∈ rows df → default 0 (year_cells r !! label) = 0) →
  year_column_sum label df = 0.
Proof.
  intros Hzero. rewrite year_column_sum_exact.
  - rewrite <- total_cells_default. by apply total_zero.
  - rewrite <- total_abs_cells. rewrite total_zero; [lia|].
    intros r Hr. by rewrite (Hzero r Hr).
Qed.

(** C1 (amended): every trace of the citations chart has one point for each
    year after the selected year up to the horizon (2025) whose label is a
    column of the table, in increasing order, and no point for a year whose
    column is absent; the value of a point is the company's sum over that
    year's column, and a year whose cells are all zero or empty keeps its
    point, with the value zero. When the table has a column for every year
    after the selected year up to the horizon, the trace has exactly one
    point per year from the year after the selected one to the horizon,
    without a gap. *)
Theorem citations_chart_contiguous `{!FloatSum} (df : DataFrame) (Y : Z) (s : Scatter) :
  s ∈ fig_data (create_citations_to_year_chart df Y) →
  ∃ id, id ∈ unique_ids df
    ∧ rows (year_rows (company_rows df id) Y) ≠ []
    ∧ trace_x s = filter (λ y, Py.str y ∈ columns df) (seqZ (Y + 1) (horizon - Y))
    ∧ trace_y s
      = (λ y, year_column_sum (Py.str y) (year_rows (company_rows df id) Y))
          <$> trace_x s
    ∧ (∀ y, Py.str y ∉ columns df → y ∉ trace_x s)
    ∧ (∀ y, Y < y ≤ horizon → Py.str y ∈ columns df →
         (∀ r, r ∈ rows (year_rows (company_rows df id) Y) →
               default 0 (year_cells r !! Py.str y) = 0) →
         ∃ j, trace_x s !! j = Some y ∧ trace_y s !! j = Some 0)
    ∧ ((∀ y, Y < y ≤ horizon → Py.str y ∈ columns df) →
       trace_x s = seqZ (Y + 1) (horizon - Y)
       ∧ trace_y s
         = (λ y, year_column_sum (Py.str y) (year_rows (company_rows df id) Y))
             <$> seqZ (Y + 1) (horizon - Y)
       ∧ length (trace_x s) = Z.to_nat (horizon - Y)
       ∧ length (trace_y s) = Z.to_nat (horizon - Y)
       ∧ StronglySorted Z.lt (trace_x s)
       ∧ ∀ y, Y < y ≤ horizon →
           (∀ r, r ∈ rows (year_rows (company_rows df id) Y) →
                 default 0 (year_cells r !! Py.str y) = 0) →
           trace_x s !! Z.to_nat (y - Y - 1) = Some y
           ∧ trace_y s !! Z.to_nat (y - Y - 1) = Some 0).
Proof.
  intros Hs. simpl in Hs.
  apply list_elem_of_omap in Hs as (id & Hid & Htrace).
  destruct (citations_trace_Some df Y id s Htrace) as (Hrows & _ & ->).
  exists id. cbn [trace_x trace_y].
  set (yd := year_rows (company_rows df id) Y) in *.
  set (xs := filter (λ y, Py.str y ∈ columns df) (seqZ (Y + 1) (horizon - Y))).
  split; [done|]. split; [done|]. split; [done|]. split; [done|].
  split. { intros y Hno Hy. by apply list_elem_of_filter in Hy as [? _]. }
  split.
  { intros y Hy Hcol Hzero.
    assert (y ∈ xs) as Hin.
    { apply list_elem_of_filter. split; [done|]. apply elem_of_seqZ. lia. }
    apply list_elem_of_lookup_1 in Hin as [j Hj]. exists j. split; [done|].
    rewrite list_lookup_fmap, Hj. simpl. f_equal.
    by apply year_column_sum_zero. }
  intros Hcols.
  assert (xs = seqZ (Y + 1) (horizon - Y)) as ->.
  { apply filter_all. intros y Hy. apply elem_of_seqZ in Hy. apply Hcols. lia. }
  split; [done|]. split; [done|].
  split; [apply length_seqZ|]. split; [by rewrite length_fmap, length_seqZ|].
  split; [apply seqZ_strictly_sorted|].
  intros y Hy Hzero.
  assert (seqZ (Y + 1) (horizon - Y) !! Z.to_nat (y - Y - 1) = Some y) as Hlookup.
  { apply lookup_seqZ. lia. }
  split; [done|].
  rewrite list_lookup_fmap, Hlookup. simpl. f_equal.
  by apply year_column_sum_zero.
Qed.

Lemma citations_chart_contiguous_witness :
  let s := mkScatter [2016; 2017; 2018; 2019; 2020; 2021; 2022; 2023; 2024; 2025]
                     [3; 7; 0; 0; 0; 0; 0; 0; 0; 0] "Acme" in
  ∃ id, id ∈ unique_ids sample_table
    ∧ rows (year_rows (company_rows sample_table id) 2015) ≠ []
    ∧ (∀ y, Py.str y ∉ columns sample_table → y ∉ trace_x s)
    ∧ trace_x s = seqZ (2015 + 1) (horizon - 2015)
    ∧ trace_y s
      = (λ y, year_column_sum (Py.str y) (year_rows (company_rows sample_table id) 2015))
          <$> seqZ (2015 + 1) (horizon - 2015)
    ∧ length (trace_x s) = Z.to_nat (horizon - 2015)
    ∧ length (trace_y s) = Z.to_nat (horizon - 2015)
    ∧ StronglySorted Z.lt (trace_x s)
    ∧ ∀ y, 2015 < y ≤ horizon →
        (∀ r, r ∈ rows (year_rows (company_rows sample_table id) 2015) →
              default 0 (year_cells r !! Py.str y) = 0) →
        trace_x s !! Z.to_nat (y - 2015 - 1) = Some y
        ∧ trace_y s !! Z.to_nat (y - 2015 - 1) = Some 0.
Proof.
  intros s.
  assert (s ∈ fig_data (create_citations_to_year_chart sample_table 2015)) as Hs
    by (vm_compute; left).
  destruct (citations_chart_contiguous sample_table 2015 s Hs)
    as (id & Hid & Hrows & _ & _ & Habsent & _ & Hall).
  exists id. split; [done|]. split; [done|]. split; [done|].
  apply Hall. intros y Hy.
  change (columns sample_table)
    with (core_columns ++ (Py.str <$> Py.range 2016 2026)).
  apply elem_of_app. right.
  apply list_elem_of_fmap. exists y. split; [done|].
  apply elem_of_seqZ. unfold horizon in Hy. lia.
Defined.

(** The scenario of the specification: citations to the 2015 patents of
    Acme, zero-filled up to 2025; Beta has no row for 2015 and no trace. *)
Example citations_chart_sample :
  create_citations_to_year_chart sample_table 2015
  = mkFigure [mkScatter [2016; 2017; 2018; 2019; 2020; 2021; 2022; 2023; 2024; 2025]
                        [3; 7; 0; 0; 0; 0; 0; 0; 0; 0] "Acme"]
             "Citations to Patents from 2015 by Subsequent Year".
Proof. vm_compute. reflexivity. Qed.

(** C1 as stated fails: with columns ["2023"] and ["2025"] but none for
    2024, the trace for the selected year 2022 has the two points 2023 and
    2025, not the three contiguous ones up to the horizon. *)
Lemma citations_chart_gap_counterexample :
  fig_data (create_citations_to_year_chart gappy_table 2022)
  = [mkScatter [2023; 2025] [3; 7] "Acme"]
  ∧ ¬ (∀ s, s ∈ fig_data (create_citations_to_year_chart gappy_table 2022) →
            contiguous_to_horizon 2022 s).
Proof.
  assert (fig_data (create_citations_to_year_chart gappy_table 2022)
          = [mkScatter [2023; 2025] [3; 7] "Acme"]) as Hfig
    by (vm_compute; reflexivity).
  split; [done|]. intros Hall.
  destruct (Hall (mkScatter [2023; 2025] [3; 7] "Acme")) as [Hx _].
  - rewrite Hfig. left.
  - vm_compute in Hx. discriminate Hx.
Qed.

(** C9 (amended): when the table has no column for any year after the
    selected year up to the horizon, the citations chart has no trace at
    all: every company, with or without rows for the selected year, is left
    out of the figure. *)
Theorem citations_chart_last_year `{!FloatSum} (df : DataFrame) (Y : Z) :
  (∀ y, Y < y ≤ horizon → Py.str y ∉ columns df) →
  (∀ id, citations_trace df Y id = None)
  ∧ fig_data (create_citations_to_year_chart df Y) = [].
Proof.
  intros Hcols.
  assert (∀ id, citations_trace df Y id = None) as Hnone.
  { intros id. unfold citations_trace.
    destruct (is_empty _); [done|].
    rewrite citations_by_year_no_columns; [done|].
    by rewrite columns_year_rows, columns_company_rows. }
  split; [done|]. simpl.
  rewrite <- (list_fmap_id (unique_ids df)).
  by apply omap_fmap_None.
Qed.

Lemma citations_chart_last_year_witness :
  (∀ id, citations_trace last_year_table 2025 id = None)
  ∧ fig_data (create_citations_to_year_chart last_year_table 2025) = [].
Proof.
  apply (citations_chart_last_year last_year_table 2025).
  intros y Hy. unfold horizon in Hy. lia.
Defined.

(** C9 as stated fails: the company has a row for 2025, the last year,
    and the figure holds no trace for it, empty or not. *)
Lemma citations_chart_last_year_counterexample :
  (∃ r, r ∈ rows last_year_table ∧ cited_year r = 2025)
  ∧ ¬ (∃ s, s ∈ fig_data (create_citations_to_year_chart last_year_table 2025)
            ∧ trace_x s = [] ∧ trace_y s = []).
Proof.
  split.
  - eexists. split; [left|reflexivity].
  - intros (s & Hs & _). vm_compute in Hs. by apply elem_of_nil in Hs.
Qed.

(** ** Names of the traces *)

Lemma string_length_app (a b : string) :
  String.length (a +:+ b) = (String.length a + String.length b)%nat.
Proof. unfold String.app. induction a as [|c a IH]; simpl; [done|]. by rewrite IH. Qed.

(** A display name is never the bare organization name. *)
Lemma display_name_longer (organization id : string) :
  display_name organization id ≠ organization.
Proof.
  intros Heq. apply (f_equal String.length) in Heq.
  unfold display_name in Heq. rewrite !string_length_app in Heq.
  simpl in Heq. lia.
Qed.

Lemma has_row_at_rows (df : DataFrame) (Y : Z) (id : string) :
  has_row_at df Y id ↔ rows (year_rows (company_rows df id) Y) ≠ [].
Proof.
  unfold has_row_at. rewrite rows_company_year, Exists_exists. split.
  - intros (r & Hr & HP) Hnil.
    assert (r ∈ filter (λ r, assignee_id r = id ∧ cited_year r = Y) (rows df)) as Hin
      by (by apply list_elem_of_filter).
    rewrite Hnil in Hin. by apply elem_of_nil in Hin.
  - destruct (filter _ (rows df)) as [|r l] eqn:Hf; [done|]. intros _.
    assert (r ∈ filter (λ r, assignee_id r = id ∧ cited_year r = Y) (rows df)) as Hin
      by (rewrite Hf; left).
    apply list_elem_of_filter in Hin as [HP Hr]. by exists r.
Qed.

Lemma omap_decide_fmap {A B} (f : A → option B) (Q : A → Prop)
    `{!∀ a, Decision (Q a)} (h : A → B) (l : list A) :
  (∀ a, Q a → f a = Some (h a)) → (∀ a, ¬ Q a → f a = None) →
  omap f l = h <$> filter Q l.
Proof.
  intros Hyes Hno. induction l as [|a l IH]; [done|]. csimpl.
  rewrite filter_cons. case_decide as Ha.
  - rewrite (Hyes a Ha). csimpl. by rewrite IH.
  - by rewrite (Hno a Ha).
Qed.

(** The traces of the citations chart, company by company. *)
Lemma chart_traces `{!FloatSum} (df : DataFrame) (Y : Z) :
  let xs := filter (λ y, Py.str y ∈ columns df) (seqZ (Y + 1) (horizon - Y)) in
  fig_data (create_citations_to_year_chart df Y)
  = (λ id,
       mkScatter xs
         ((λ y, year_column_sum (Py.str y) (year_rows (company_rows df id) Y)) <$> xs)
         (first_organization (company_rows df id)))
      <$> filter (λ id, has_row_at df Y id ∧ xs ≠ []) (unique_ids df).
Proof.
  intros xs. cbn [create_citations_to_year_chart fig_data].
  apply omap_decide_fmap.
  - intros id [Hrow Hxs]. apply has_row_at_rows in Hrow.
    unfold citations_trace.
    destruct (is_empty _) eqn:Hempty.
    { apply (is_empty_true (year_rows _ _)) in Hempty. done. }
    rewrite citations_by_year_filter.
    rewrite columns_year_rows, columns_company_rows. fold xs.
    destruct xs as [|x xs']; [done|].
    csimpl. f_equal. f_equal.
    + f_equal. rewrite <- list_fmap_compose.
      rewrite <- (list_fmap_id xs') at 2. by apply list_fmap_ext.
    + f_equal. rewrite <- list_fmap_compose. by apply list_fmap_ext.
  - intros id Hnot. unfold citations_trace.
    destruct (is_empty _) eqn:Hempty; [done|].
    rewrite citations_by_year_filter.
    rewrite columns_year_rows, columns_company_rows. fold xs.
    destruct xs as [|x xs'] eqn:Hxs; [done|].
    exfalso. apply Hnot. split; [|done].
    apply has_row_at_rows. intros Hnil.
    apply (is_empty_true (year_rows _ _)) in Hnil. congruence.
Qed.

Lemma named_after_first (df : DataFrame) (id : string) (s : Scatter) :
  id ∈ unique_ids df →
  trace_name s = first_organization (company_rows df id) →
  named_after df id s.
Proof.
  intros Hid Hname.
  destruct (company_rows_nonempty df id Hid) as (r & Hhead & _ & Hfirst).
  unfold company_rows in Hhead. rewrite rows_select in Hhead.
  exists r. rewrite Hname, Hfirst. split; [done|]. split; [done|].
  intros Heq. by apply (display_name_longer (raw_assignee_organization r) id).
Qed.

(** C8 (amended): every trace of each of the three charts is named after
    the company whose numbers it shows, with the organization name of the
    first row of that company as it stands in the table; the name is not
    the catalog's display name of that company, which has the abbreviated
    id appended. In the two timelines the i-th trace is that of the i-th
    company of the table; in the citations chart the traces are, in the
    same order, those of the companies that have a row for the selected
    year, when the table has a column for a later year. *)
Theorem trace_names_are_organizations `{!FloatSum} (df : DataFrame) (Y : Z) :
  let xs := filter (λ y, Py.str y ∈ columns df) (seqZ (Y + 1) (horizon - Y)) in
  Forall2 (λ id s, named_after df id s ∧ timeline_of patents_assigned df id s)
          (unique_ids df) (fig_data (create_patents_timeline df))
  ∧ Forall2 (λ id s, named_after df id s ∧ timeline_of total_citations df id s)
            (unique_ids df) (fig_data (create_citations_timeline df))
  ∧ Forall2 (λ id s,
               named_after df id s
               ∧ trace_x s = xs
               ∧ trace_y s
                 = (λ y, year_column_sum (Py.str y) (year_rows (company_rows df id) Y))
                     <$> xs)
            (filter (λ id, has_row_at df Y id ∧ xs ≠ []) (unique_ids df))
            (fig_data (create_citations_to_year_chart df Y))
  ∧ ∀ s, s ∈ fig_data (create_citations_to_year_chart df Y)
         ∨ s ∈ fig_data (create_patents_timeline df)
         ∨ s ∈ fig_data (create_citations_timeline df) →
         ∃ id, id ∈ unique_ids df ∧ named_after df id s.
Proof.
  intros xs.
  assert (∀ col, (∀ r, in_int64 (col r)) →
            Forall2 (λ id s, named_after df id s ∧ timeline_of col df id s)
                    (unique_ids df) (timeline_trace col df <$> unique_ids df))
    as Htimeline.
  { intros col Hcol. apply Forall2_fmap_r, Forall_Forall2_diag, Forall_forall.
    intros id Hid. split; [by apply named_after_first|].
    by apply timeline_trace_total. }
  assert (Forall2 (λ id s,
               named_after df id s
               ∧ trace_x s = xs
               ∧ trace_y s
                 = (λ y, year_column_sum (Py.str y) (year_rows (company_rows df id) Y))
                     <$> xs)
            (filter (λ id, has_row_at df Y id ∧ xs ≠ []) (unique_ids df))
            (fig_data (create_citations_to_year_chart df Y))) as Hchart.
  { rewrite chart_traces. fold xs.
    apply Forall2_fmap_r, Forall_Forall2_diag, Forall_forall.
    intros id Hid. apply list_elem_of_filter in Hid as [_ Hid].
    split; [by apply named_after_first|done]. }
  split. { apply Htimeline. intros r. apply record_in_int64. }
  split. { apply Htimeline. intros r. apply record_in_int64. }
  split; [exact Hchart|].
  intros s [Hs | [Hs | Hs]]; simpl in Hs.
  - apply list_elem_of_omap in Hs as (id & Hid & Htrace).
    exists id. split; [done|]. apply named_after_first; [done|].
    by destruct (citations_trace_Some df Y id s Htrace) as (_ & _ & ->).
  - apply list_elem_of_fmap in Hs as (id & -> & Hid).
    exists id. split; [done|]. by apply named_after_first.
  - apply list_elem_of_fmap in Hs as (id & -> & Hid).
    exists id. split; [done|]. by apply named_after_first.
Qed.

(** In the sample table the second trace of the patents timeline is Beta's:
    it carries Beta's name and Beta's numbers. *)
Example trace_names_sample :
  fig_data (create_patents_timeline sample_table) !! 1%nat
  = Some (mkScatter [2016] [10] "Beta")
  ∧ unique_ids sample_table !! 1%nat = Some "BBBB"
  ∧ named_after sample_table "BBBB" (mkScatter [2016] [10] "Beta").
Proof.
  split; [vm_compute; reflexivity|]. split; [vm_compute; reflexivity|].
  exists beta_2016a. split; [vm_compute; reflexivity|]. split; [done|].
  vm_compute. discriminate.
Qed.

(** C8 as stated fails: the catalog labels of the sample table are
    ["Acme (AAAAAAAA...)"] and ["Beta (BBBB...)"], while each of the three
    charts names the trace of the first company ["Acme"]. *)
Lemma trace_name_counterexample :
  let labelled (fig : Figure) :=
    ∀ s, s ∈ fig_data fig →
         ∃ row, row ∈ get_company_list sample_table ∧ trace_name s = row.2 in
  ¬ labelled (create_citations_to_year_chart sample_table 2015)
  ∧ ¬ labelled (create_patents_timeline sample_table)
  ∧ ¬ labelled (create_citations_timeline sample_table).
Proof.
  assert (∀ s, trace_name s = "Acme" →
            ¬ ∃ row, row ∈ get_company_list sample_table ∧ trace_name s = row.2)
    as Hacme.
  { intros s Hs (row & Hrow & Hname). rewrite Hs in Hname.
    vm_compute in Hrow.
    apply elem_of_cons in Hrow as [-> | Hrow]; [discriminate Hname|].
    apply list_elem_of_singleton in Hrow as ->. discriminate Hname. }
  repeat split; intros Hall.
  - eapply (Hacme (mkScatter (seqZ 2016 10) [3; 7; 0; 0; 0; 0; 0; 0; 0; 0] "Acme"));
      [done|]. apply Hall. vm_compute. left.
  - eapply (Hacme (mkScatter [2015; 2016] [10; 8] "Acme")); [done|].
    apply Hall. vm_compute. left.
  - eapply (Hacme (mkScatter [2015; 2016] [5; 2] "Acme")); [done|].
    apply Hall. vm_compute. left.
Qed.

(** ** Selected companies without rows *)

Lemma unique_ids_isin (df : DataFrame) (ids : list string) :
  unique_ids (isin df ids) = filter (λ c, c ∈ ids) (unique_ids df).
Proof. unfold isin. pose proof (unique_ids_select (λ c, c ∈ ids) df) as H. apply H. Qed.

Lemma isin_without_recordless (df : DataFrame) (ids : list string) (id : string) :
  id ∉ assignee_id <$> rows df →
  isin df ids = isin df (filter (λ c, c ≠ id) ids).
Proof.
  intros Hid. unfold isin. apply select_ext.
  apply filter_ext_elem_of. intros r Hr.
  rewrite list_elem_of_filter. split; [|tauto].
  intros Hin. split; [|done]. intros Heq. apply Hid.
  apply list_elem_of_fmap. by exists r.
Qed.

(** The companies of the filtered table are the selected ids that have a
    row, each once. *)
Lemma unique_ids_isin_length (df : DataFrame) (ids : list string) :
  length (unique_ids (isin df ids))
  = length (filter (λ c, c ∈ assignee_id <$> rows df) (unique ids)).
Proof.
  apply Permutation_length, NoDup_Permutation.
  - apply NoDup_unique.
  - apply NoDup_filter, NoDup_unique.
  - intros c. rewrite unique_ids_isin, !list_elem_of_filter.
    unfold unique_ids. rewrite !elem_of_unique. tauto.
Qed.

(** C10: a selected id without any row in the table leaves no mark on the
    output. The filtered table is the one obtained without selecting it, so
    the summary and the three charts are the same as without it; it is not
    among the companies the loops visit; and the summary and the timelines
    have one entry per selected id that has a row, the citations chart at
    most that many. When other ids remain selected the callback returns
    the same as without it. *)
Theorem recordless_company_absent `{!FloatSum} (st : AppState) (ids : list string) (Y : Z)
    (active_tab id : string) :
  id ∉ assignee_id <$> rows (df st) →
  let companies_data := isin (df st) ids in
  let with_rows := filter (λ c, c ∈ assignee_id <$> rows (df st)) (unique ids) in
  companies_data = isin (df st) (filter (λ c, c ≠ id) ids)
  ∧ (id ∉ unique_ids companies_data)
  ∧ (id ∉ with_rows)
  ∧ length (get_patents_in_year companies_data Y) = length with_rows
  ∧ length (fig_data (create_patents_timeline companies_data)) = length with_rows
  ∧ length (fig_data (create_citations_timeline companies_data)) = length with_rows
  ∧ (length (fig_data (create_citations_to_year_chart companies_data Y))
     ≤ length with_rows)%nat
  ∧ (filter (λ c, c ≠ id) ids ≠ [] →
     update_dashboard st (Some ids) (Some Y) active_tab
     = update_dashboard st (Some (filter (λ c, c ≠ id) ids)) (Some Y) active_tab).
Proof.
  intros Hid companies_data with_rows.
  pose proof (isin_without_recordless (df st) ids id Hid) as Hsame.
  pose proof (unique_ids_isin_length (df st) ids) as Hlen.
  fold companies_data with_rows in Hlen.
  split; [done|]. split.
  { unfold companies_data. rewrite unique_ids_isin, list_elem_of_filter.
    unfold unique_ids. rewrite elem_of_unique. tauto. }
  split.
  { unfold with_rows. rewrite list_elem_of_filter. tauto. }
  split. { unfold get_patents_in_year. by rewrite length_fmap. }
  split. { simpl. by rewrite length_fmap. }
  split. { simpl. by rewrite length_fmap. }
  split.
  { simpl. rewrite <- Hlen. clear.
    induction (unique_ids companies_data) as [|c l IH]; csimpl; [done|].
    destruct (citations_trace _ _ c); simpl; lia. }
  intros Hrest. unfold update_dashboard.
  destruct ids as [|c ids]; [done|].
  destruct (filter _ (c :: ids)) as [|c' ids'] eqn:Hfilter; [done|].
  simpl. by rewrite Hsame.
Qed.

Lemma recordless_company_absent_witness :
  let st := sample_state in
  let ids := ["BBBB"; "ZZZZ"] in
  let companies_data := isin (df st) ids in
  let with_rows := filter (λ c, c ∈ assignee_id <$> rows (df st)) (unique ids) in
  companies_data = isin (df st) (filter (λ c, c ≠ "ZZZZ") ids)
  ∧ ("ZZZZ" ∉ unique_ids companies_data)
  ∧ ("ZZZZ" ∉ with_rows)
  ∧ length (get_patents_in_year companies_data 2016) = length with_rows
  ∧ length (fig_data (create_patents_timeline companies_data)) = length with_rows
  ∧ length (fig_data (create_citations_timeline companies_data)) = length with_rows
  ∧ (length (fig_data (create_citations_to_year_chart companies_data 2016))
     ≤ length with_rows)%nat
  ∧ (filter (λ c, c ≠ "ZZZZ") ids ≠ [] →
     update_dashboard st (Some ids) (Some 2016) "patents-timeline"
     = update_dashboard st (Some (filter (λ c, c ≠ "ZZZZ") ids)) (Some 2016)
                        "patents-timeline").
Proof.
  apply (recordless_company_absent sample_state
           ["BBBB"; "ZZZZ"] 2016 "patents-timeline" "ZZZZ").
  refine (bool_decide_unpack _ _). vm_compute. exact I.
Defined.

(** Only the company with rows is listed; the other one is not there with
    a count of 0. *)
Example summary_skips_recordless_company :
  update_dashboard sample_state (Some ["BBBB"; "ZZZZ"]) (Some 2016)
                   "citations-to-year"
  = Returned (SummaryDiv 2016 [("Beta", 10)],
              Graph (mkFigure [mkScatter [2017; 2018; 2019; 2020; 2021; 2022; 2023; 2024; 2025]
                                         [0; 0; 0; 0; 0; 0; 0; 0; 0] "Beta"]
                              "Citations to Patents from 2016 by Subsequent Year")).
Proof. vm_compute. reflexivity. Qed.

(** * Further properties of the code *)

(** ** Selecting companies and aggregating commute *)

Lemma patents_entry_select (Q : string → Prop) `{!∀ id, Decision (Q id)}
    (df : DataFrame) (Y : Z) (id : string) :
  Q id → patents_entry (select (λ r, Q (assignee_id r)) df) Y id = patents_entry df Y id.
Proof. intros HQ. unfold patents_entry. by rewrite company_rows_select. Qed.

Lemma timeline_trace_select (col : record → Z) (Q : string → Prop)
    `{!∀ id, Decision (Q id)} (df : DataFrame) (id : string) :
  Q id → timeline_trace col (select (λ r, Q (assignee_id r)) df) id = timeline_trace col df id.
Proof. intros HQ. unfold timeline_trace. by rewrite company_rows_select. Qed.

(** The entries of a loop over the kept ids are the entries of the loop
    over all ids at the kept positions. *)
Lemma filter_zip_fmap {A B} (f : A → B) (Q : A → Prop) `{!∀ a, Decision (Q a)}
    (l : list A) :
  (filter (λ p, Q p.1) (zip l (f <$> l))).*2 = f <$> filter Q l.
Proof.
  induction l as [|a l IH]; [done|]. csimpl.
  rewrite !filter_cons. simpl. case_decide; csimpl; by rewrite IH.
Qed.

Lemma omap_filter_sublist {A B} (f : A → option B) (Q : A → Prop)
    `{!∀ a, Decision (Q a)} (l : list A) :
  omap f (filter Q l) `sublist_of` omap f l.
Proof.
  induction l as [|a l IH]; [done|].
  rewrite filter_cons. case_decide; csimpl.
  - destruct (f a); [by constructor|done].
  - destruct (f a); [by constructor|done].
Qed.

(** X1: restricting the table to the selected companies and then building
    the summary or a timeline gives the entries that the whole table gives
    for those companies, with the same values and in the same order; the
    citations chart of the restricted table is that of the whole table with
    some traces taken out. No company's numbers depend on which other
    companies are selected. *)
Theorem isin_keeps_entries `{!FloatSum} (df : DataFrame) (ids : list string) (Y : Z) :
  get_patents_in_year (isin df ids) Y
  = (filter (λ p, p.1 ∈ ids) (zip (unique_ids df) (get_patents_in_year df Y))).*2
  ∧ fig_data (create_patents_timeline (isin df ids))
    = (filter (λ p, p.1 ∈ ids)
              (zip (unique_ids df) (fig_data (create_patents_timeline df)))).*2
  ∧ fig_data (create_citations_timeline (isin df ids))
    = (filter (λ p, p.1 ∈ ids)
              (zip (unique_ids df) (fig_data (create_citations_timeline df)))).*2
  ∧ fig_data (create_citations_to_year_chart (isin df ids) Y)
    `sublist_of` fig_data (create_citations_to_year_chart df Y).
Proof.
  assert (∀ {B} (f g : string → B),
            (∀ id, id ∈ ids → f id = g id) →
            f <$> unique_ids (isin df ids)
            = (filter (λ p, p.1 ∈ ids) (zip (unique_ids df) (g <$> unique_ids df))).*2)
    as Hloop.
  { intros B f g Hfg. symmetry.
    etrans; [exact (filter_zip_fmap g (λ c, c ∈ ids) (unique_ids df))|].
    rewrite unique_ids_isin. symmetry. apply fmap_ext_elem_of. intros id Hid.
    apply list_elem_of_filter in Hid as [Hid _]. by apply Hfg. }
  repeat split.
  - apply Hloop. intros id Hid.
    exact (patents_entry_select (λ c, c ∈ ids) df Y id Hid).
  - apply Hloop. intros id Hid.
    exact (timeline_trace_select patents_assigned (λ c, c ∈ ids) df id Hid).
  - apply Hloop. intros id Hid.
    exact (timeline_trace_select total_citations (λ c, c ∈ ids) df id Hid).
  - simpl. rewrite unique_ids_isin.
    rewrite (omap_ext_elem_of (citations_trace (isin df ids) Y) (citations_trace df Y)).
    + apply omap_filter_sublist.
    + intros id Hid. apply list_elem_of_filter in Hid as [Hid _].
      exact (citations_trace_select (λ c, c ∈ ids) df Y id Hid).
Qed.

(** ** What the callback returns *)




Lemma isin_same_set (df : DataFrame) (ids ids' : list string) :
  ids ⊆ ids' → ids' ⊆ ids → isin df ids = isin df ids'.
Proof.
  intros H1 H2. unfold isin. apply select_ext.
  apply list_filter_iff. intros r. split; [apply H1|apply H2].
Qed.

(** X3: the callback looks at the selected companies as a set: selections
    with the same ids, in any order and with any repetition, get the same
    summary and the same figure. The order of the output is that of the
    table, not that of the selection. *)
Theorem update_dashboard_selection_set `{!FloatSum} (st : AppState) (ids ids' : list string)
    (selected_year : option Z) (active_tab : string) :
  ids ⊆ ids' → ids' ⊆ ids →
  update_dashboard st (Some ids) selected_year active_tab
  = update_dashboard st (Some ids') selected_year active_tab.
Proof.
  intros H1 H2. unfold update_dashboard.
  assert (truthy_companies (Some ids) = truthy_companies (Some ids')) as ->.
  { destruct ids as [|c ids], ids' as [|c' ids']; simpl; [done| | |done].
    - exfalso. eapply elem_of_nil, H2. left.
    - exfalso. eapply elem_of_nil, H1. left. }
  simpl. by rewrite (isin_same_set (df st) ids ids').
Qed.

Lemma update_dashboard_selection_set_witness :
  update_dashboard sample_state (Some ["BBBB"; "AAAAAAAA1234"]) (Some 2016)
                   "citations-to-year"
  = update_dashboard sample_state (Some ["AAAAAAAA1234"; "BBBB"; "BBBB"]) (Some 2016)
                     "citations-to-year".
Proof.
  apply (update_dashboard_selection_set sample_state
           ["BBBB"; "AAAAAAAA1234"] ["AAAAAAAA1234"; "BBBB"; "BBBB"]).
  - refine (bool_decide_unpack _ _). vm_compute. exact I.
  - refine (bool_decide_unpack _ _). vm_compute. exact I.
Defined.

(** ** The years of the citations chart *)

(** X4: in every trace of the citations chart the years are those after the
    selected year up to 2025 whose label is a column of the table, in
    increasing order, so all traces of a figure have the same years; a
    trace is never empty, never reaches back to the selected year or past
    2025 and has one value per year. The trace belongs to a company with a
    row for the selected year, and the value of a year is the exact sum of
    the cells of that year's column in the company's rows for the selected
    year, empty cells left out, whenever the absolute values of those cells
    add up to at most [2^53]. *)
Theorem citations_chart_years `{!FloatSum} (df : DataFrame) (Y : Z) (s : Scatter) :
  s ∈ fig_data (create_citations_to_year_chart df Y) →
  trace_x s = filter (λ y, Py.str y ∈ columns df) (seqZ (Y + 1) (horizon - Y))
  ∧ trace_x s ≠ []
  ∧ StronglySorted Z.lt (trace_x s)
  ∧ Forall (λ y, Y < y ≤ horizon) (trace_x s)
  ∧ length (trace_y s) = length (trace_x s)
  ∧ (length (trace_x s) ≤ Z.to_nat (horizon - Y))%nat
  ∧ ∃ id, id ∈ unique_ids df
      ∧ has_row_at df Y id
      ∧ ∀ j y v,
          trace_x s !! j = Some y → trace_y s !! j = Some v →
          let cells :=
            omap (λ r, year_cells r !! Py.str y)
                 (filter (λ r, assignee_id r = id ∧ cited_year r = Y) (rows df)) in
          total (Z.abs <$> cells) ≤ 2 ^ 53 → v = total cells.
Proof.
  intros Hs. simpl in Hs. apply list_elem_of_omap in Hs as (id & Hid & Htrace).
  destruct (citations_trace_Some df Y id s Htrace) as (Hrows & Hxs & ->).
  cbn [trace_x trace_y].
  split; [done|]. split; [done|].
  split; [apply filter_strictly_sorted, seqZ_strictly_sorted|].
  split.
  { apply Forall_forall. intros y Hy. apply list_elem_of_filter in Hy as [_ Hy].
    apply elem_of_seqZ in Hy. lia. }
  split; [by rewrite length_fmap|].
  split; [rewrite <- (length_seqZ (Y + 1)); apply length_filter|].
  exists id. split; [done|]. split; [by apply has_row_at_rows|].
  intros j y v Hy Hv. cbv zeta. intros Hcells.
  rewrite list_lookup_fmap, Hy in Hv. injection Hv as <-.
  rewrite <- rows_company_year in *.
  by apply year_column_sum_exact.
Qed.

Lemma citations_chart_years_witness :
  let s := mkScatter [2023; 2025] [3; 7] "Acme" in
  trace_x s = filter (λ y, Py.str y ∈ columns gappy_table) (seqZ (2022 + 1) (horizon - 2022))
  ∧ trace_x s ≠ []
  ∧ StronglySorted Z.lt (trace_x s)
  ∧ Forall (λ y, 2022 < y ≤ horizon) (trace_x s)
  ∧ length (trace_y s) = length (trace_x s)
  ∧ (length (trace_x s) ≤ Z.to_nat (horizon - 2022))%nat
  ∧ ∃ id, id ∈ unique_ids gappy_table
      ∧ has_row_at gappy_table 2022 id
      ∧ ∀ j y v,
          trace_x s !! j = Some y → trace_y s !! j = Some v →
          let cells :=
            omap (λ r, year_cells r !! Py.str y)
                 (filter (λ r, assignee_id r = id ∧ cited_year r = 2022)
                         (rows gappy_table)) in
          total (Z.abs <$> cells) ≤ 2 ^ 53 → v = total cells.
Proof.
  apply (citations_chart_years gappy_table 2022). vm_compute. left.
Defined.

(** ** The companies of the citations chart *)

(** X5: when the table has a column for at least one year after the
    selected year up to 2025, the citations chart has exactly one trace for
    each company that has a row for the selected year, in the order in
    which the companies first appear in the table, named after the
    company's first row; companies without such a row have none. *)
Theorem citations_chart_companies `{!FloatSum} (df : DataFrame) (Y : Z) :
  (∃ y, Y < y ≤ horizon ∧ Py.str y ∈ columns df) →
  fig_data (create_citations_to_year_chart df Y)
  = (λ id,
       let xs := filter (λ y, Py.str y ∈ columns df) (seqZ (Y + 1) (horizon - Y)) in
       mkScatter xs
         ((λ y, year_column_sum (Py.str y) (year_rows (company_rows df id) Y)) <$> xs)
         (first_organization (company_rows df id)))
      <$> filter (has_row_at df Y) (unique_ids df).
Proof.
  intros (y & Hy & Hcol). simpl.
  assert (filter (λ y, Py.str y ∈ columns df) (seqZ (Y + 1) (horizon - Y)) ≠ []) as Hxs.
  { intros Hnil.
    assert (y ∈ filter (λ y, Py.str y ∈ columns df) (seqZ (Y + 1) (horizon - Y))) as Hin.
    { apply list_elem_of_filter. split; [done|]. apply elem_of_seqZ. lia. }
    rewrite Hnil in Hin. by apply elem_of_nil in Hin. }
  apply omap_decide_fmap.
  - intros id Hrow. apply has_row_at_rows in Hrow.
    unfold citations_trace.
    destruct (is_empty _) eqn:Hempty.
    { apply (is_empty_true (year_rows _ _)) in Hempty. done. }
    rewrite citations_by_year_filter.
    rewrite columns_year_rows, columns_company_rows.
    destruct (filter _ (seqZ _ _)) as [|x xs] eqn:Hf; [done|].
    csimpl. f_equal. f_equal.
    + f_equal. rewrite <- list_fmap_compose.
      rewrite <- (list_fmap_id xs) at 2. by apply list_fmap_ext.
    + f_equal. rewrite <- list_fmap_compose. by apply list_fmap_ext.
  - intros id Hrow. unfold citations_trace.
    rewrite (proj2 (is_empty_true _)); [done|].
    destruct (rows (year_rows (company_rows df id) Y)) eqn:Hrows; [done|].
    exfalso. apply Hrow, has_row_at_rows. by rewrite Hrows.
Qed.

Lemma citations_chart_companies_witness :
  fig_data (create_citations_to_year_chart sample_table 2016)
  = (λ id,
       let xs := filter (λ y, Py.str y ∈ columns sample_table)
                        (seqZ (2016 + 1) (horizon - 2016)) in
       mkScatter xs
         ((λ y, year_column_sum (Py.str y) (year_rows (company_rows sample_table id) 2016))
            <$> xs)
         (first_organization (company_rows sample_table id)))
      <$> filter (has_row_at sample_table 2016) (unique_ids sample_table).
Proof.
  apply (citations_chart_companies sample_table 2016).
  exists 2020. split; [unfold horizon; lia|].
  refine (bool_decide_unpack _ _). vm_compute. exact I.
Defined.

(** ** Splitting the table by company *)


Lemma within_range_year_totals_fit (col : record → Z) (df : DataFrame) (id : string) :
  total (Z.abs ∘ col <$> rows df) < 2 ^ 63 → year_totals_fit col df id.
Proof.
  intros Hcol. apply Forall_forall. intros r _.
  by apply total_filter_in_int64.
Qed.

(** X7: on a table whose counts are within range (the absolute values of
    [patents_assigned] and of [total_citations] add up to less than
    [2^63]), splitting by company keeps the totals. The counts of the
    summary add up to the exact sum of [patents_assigned] over all rows of
    the selected year, and the values of all traces of a timeline add up to
    the exact sum of its column over the whole table. *)
Theorem totals_are_kept (df : DataFrame) (Y : Z) :
  counts_within_range df →
  total ((get_patents_in_year df Y).*2)
  = total (patents_assigned <$> filter (λ r, cited_year r = Y) (rows df))
  ∧ total ((λ s, total (trace_y s)) <$> fig_data (create_patents_timeline df))
    = total (patents_assigned <$> rows df)
  ∧ total ((λ s, total (trace_y s)) <$> fig_data (create_citations_timeline df))
    = total (total_citations <$> rows df).
Proof.
  intros (Hpatents & Hcitations).
  assert (∀ col, (∀ r, in_int64 (col r)) →
            total (Z.abs ∘ col <$> rows df) < 2 ^ 63 →
            total ((λ s, total (trace_y s)) <$> (timeline_trace col df <$> unique_ids df))
            = total (col <$> rows df)) as Htimeline.
  { intros col Hcol Hrange.
    rewrite <- (total_by_key col assignee_id (unique_ids df) (rows df))
      by (apply NoDup_unique || apply assignee_id_in_unique_ids).
    rewrite <- list_fmap_compose. f_equal.
    apply list_fmap_ext. intros i id _. simpl.
    apply (timeline_trace_exact col df id Hcol).
    by apply within_range_year_totals_fit. }
  split; [|split; apply Htimeline; (done || intros r; apply record_in_int64)].
  unfold get_patents_in_year. rewrite <- list_fmap_compose.
  rewrite <- (total_by_key patents_assigned assignee_id (unique_ids df)
                (filter (λ r, cited_year r = Y) (rows df))).
  - f_equal. apply list_fmap_ext. intros i id _. simpl.
    rewrite patents_entry_sum. cbn [snd].
    rewrite list_filter_filter.
    apply sum_exact. by apply total_filter_in_int64.
  - apply NoDup_unique.
  - intros r Hr. apply list_elem_of_filter in Hr as [_ Hr].
    by apply assignee_id_in_unique_ids.
Qed.

Lemma totals_are_kept_witness :
  total ((get_patents_in_year sample_table 2016).*2)
  = total (patents_assigned <$> filter (λ r, cited_year r = 2016) (rows sample_table))
  ∧ total ((λ s, total (trace_y s)) <$> fig_data (create_patents_timeline sample_table))
    = total (patents_assigned <$> rows sample_table)
  ∧ total ((λ s, total (trace_y s)) <$> fig_data (create_citations_timeline sample_table))
    = total (total_citations <$> rows sample_table).
Proof.
  apply (totals_are_kept sample_table 2016).
  refine (bool_decide_unpack _ _). vm_compute. exact I.
Defined.

(** Without the bound the totals are not kept: the summary of the table
    whose patents add up to [2^63] adds up to [-2^63]. *)
Example totals_wrap_around :
  total ((get_patents_in_year overflow_table 2015).*2) = - 2 ^ 63
  ∧ total (patents_assigned <$> filter (λ r, cited_year r = 2015) (rows overflow_table))
    = 2 ^ 63.
Proof. split; vm_compute; reflexivity. Qed.

(** ** Summary and patents timeline *)

(** X8: the summary and the patents timeline agree. For the i-th company
    the summary entry and the timeline trace carry the same name; where the
    trace has a point for the selected year, its value is the count of the
    summary, and where it has none the count is 0. *)
Theorem summary_agrees_with_timeline (df : DataFrame) (Y : Z) (id : string) (i : nat) :
  unique_ids df !! i = Some id →
  ∃ entry p,
    get_patents_in_year df Y !! i = Some entry
    ∧ fig_data (create_patents_timeline df) !! i = Some p
    ∧ entry.1 = trace_name p
    ∧ (∀ j, trace_x p !! j = Some Y → trace_y p !! j = Some entry.2)
    ∧ (Y ∉ trace_x p → entry.2 = 0).
Proof.
  intros Hi.
  exists (patents_entry df Y id), (timeline_trace patents_assigned df id).
  unfold get_patents_in_year. cbn [create_patents_timeline fig_data].
  rewrite !list_lookup_fmap, Hi.
  split; [done|]. split; [done|].
  assert (∀ r, in_int64 (patents_assigned r)) as Hcol
    by (intros r; apply record_in_int64).
  destruct (timeline_trace_total patents_assigned df id Hcol)
    as (_ & _ & Hlen & Hyears & Hvalue).
  rewrite patents_entry_sum. cbn [fst snd]. split; [done|]. split.
  - intros j Hj.
    destruct (lookup_lt_is_Some_2 (trace_y (timeline_trace patents_assigned df id)) j)
      as [v Hv].
    { rewrite <- Hlen. by eapply lookup_lt_Some. }
    pose proof (Hvalue j Y v Hj Hv) as Hsum. rewrite <- Hsum. exact Hv.
  - intros Hno. rewrite filter_none; [done|].
    intros r Hr [Hid HY]. apply Hno, Hyears. by exists r.
Qed.

Lemma summary_agrees_with_timeline_witness :
  ∃ entry p,
    get_patents_in_year sample_table 2016 !! 1%nat = Some entry
    ∧ fig_data (create_patents_timeline sample_table) !! 1%nat = Some p
    ∧ entry.1 = trace_name p
    ∧ (∀ j, trace_x p !! j = Some 2016 → trace_y p !! j = Some entry.2)
    ∧ (2016 ∉ trace_x p → entry.2 = 0).
Proof. apply (summary_agrees_with_timeline sample_table 2016 "BBBB" 1). reflexivity. Defined.

(** ** Counts stay non-negative *)

Lemma timeline_trace_nonneg (col : record → Z) (df : DataFrame) (id : string) :
  (∀ r, in_int64 (col r)) →
  (∀ r, r ∈ rows df → 0 ≤ col r) →
  total (Z.abs ∘ col <$> rows df) < 2 ^ 63 →
  Forall (λ v, 0 ≤ v) (trace_y (timeline_trace col df id)).
Proof.
  intros Hint Hcol Hrange.
  destruct (timeline_trace_total col df id Hint) as (_ & _ & Hlen & _ & Hvalue).
  apply Forall_lookup. intros j v Hv.
  destruct (trace_x (timeline_trace col df id) !! j) as [y|] eqn:Hy.
  - rewrite (Hvalue j y v Hy Hv).
    rewrite sum_exact by (by apply total_filter_in_int64).
    apply total_fmap_nonneg.
    intros r Hr. apply list_elem_of_filter in Hr as [_ Hr]. by apply Hcol.
  - apply lookup_lt_Some in Hv. apply lookup_ge_None in Hy. lia.
Qed.

(** X9: on a table without negative counts whose numbers are within range
    (the absolute values of [patents_assigned] and of [total_citations]
    add up to less than [2^63], those of each per-year column to at most
    [2^53]), nothing shown is negative: not the counts of the summary and
    not a value of any trace of the three charts. *)
Theorem outputs_nonnegative `{!FloatSum} (df : DataFrame) (Y : Z) :
  nonnegative df →
  counts_within_range df →
  cells_within_range df →
  Forall (λ entry, 0 ≤ entry.2) (get_patents_in_year df Y)
  ∧ ∀ s, s ∈ fig_data (create_citations_to_year_chart df Y)
         ∨ s ∈ fig_data (create_patents_timeline df)
         ∨ s ∈ fig_data (create_citations_timeline df) →
         Forall (λ v, 0 ≤ v) (trace_y s).
Proof.
  unfold nonnegative. rewrite Forall_forall.
  intros Hdf (Hpatents & Hcitations) Hcells.
  unfold cells_within_range in Hcells. rewrite Forall_forall in Hcells.
  split.
  - unfold get_patents_in_year. apply Forall_fmap, Forall_forall. intros id _.
    simpl. rewrite patents_entry_sum. cbn [snd].
    rewrite sum_exact by (by apply total_filter_in_int64).
    apply total_fmap_nonneg.
    intros r Hr. apply list_elem_of_filter in Hr as [_ Hr]. by apply Hdf.
  - intros s [Hs | [Hs | Hs]]; simpl in Hs.
    + apply list_elem_of_omap in Hs as (id & _ & Htrace).
      destruct (citations_trace_Some df Y id s Htrace) as (_ & _ & ->).
      cbn [trace_y]. apply Forall_fmap, Forall_forall. intros y Hy.
      apply list_elem_of_filter in Hy as [Hcol _]. simpl.
      assert (∀ r, r ∈ rows df → 0 ≤ default 0 (year_cells r !! Py.str y)) as Hpos.
      { intros r Hr. destruct (Hdf r Hr) as (_ & _ & Hr').
        destruct (year_cells r !! Py.str y) as [v|] eqn:Hv; simpl; [|done].
        by apply (Hr' _ _ Hv). }
      rewrite year_column_sum_exact.
      * rewrite <- total_cells_default. apply total_fmap_nonneg.
        intros r Hr. rewrite rows_company_year in Hr.
        apply list_elem_of_filter in Hr as [_ Hr]. by apply Hpos.
      * rewrite <- total_abs_cells, rows_company_year.
        etrans; [|exact (Hcells _ Hcol)].
        apply (total_filter_le (λ r, Z.abs (default 0 (year_cells r !! Py.str y)))).
        intros r _. lia.
    + apply list_elem_of_fmap in Hs as (id & -> & _).
      apply timeline_trace_nonneg; [intros r; apply record_in_int64| |done].
      intros r Hr. by apply Hdf.
    + apply list_elem_of_fmap in Hs as (id & -> & _).
      apply timeline_trace_nonneg; [intros r; apply record_in_int64| |done].
      intros r Hr. by apply Hdf.
Qed.

Lemma outputs_nonnegative_witness :
  Forall (λ entry, 0 ≤ entry.2) (get_patents_in_year sample_table 2016)
  ∧ ∀ s, s ∈ fig_data (create_citations_to_year_chart sample_table 2016)
         ∨ s ∈ fig_data (create_patents_timeline sample_table)
         ∨ s ∈ fig_data (create_citations_timeline sample_table) →
         Forall (λ v, 0 ≤ v) (trace_y s).
Proof.
  apply (outputs_nonnegative sample_table 2016).
  - refine (bool_decide_unpack _ _). vm_compute. exact I.
  - refine (bool_decide_unpack _ _). vm_compute. exact I.
  - refine (bool_decide_unpack _ _). vm_compute. exact I.
Defined.

(** Without the bound a count can be negative though no cell is: the two
    rows of Acme hold [2^63 - 1] and [1] patents. *)
Example negative_count_from_overflow :
  nonnegative overflow_table
  ∧ get_patents_in_year overflow_table 2015 = [("Acme", - 2 ^ 63)].
Proof.
  split; [|vm_compute; reflexivity].
  refine (bool_decide_unpack _ _). vm_compute. exact I.
Qed.

(** ** Timelines and the order of the rows *)

Lemma strictly_sorted_unique (l k : list Z) :
  StronglySorted Z.lt l → StronglySorted Z.lt k → (∀ y, y ∈ l ↔ y ∈ k) → l = k.
Proof.
  intros Hl Hk Hlk. apply (StronglySorted_unique_strong Z.lt); [|done|done|].
  - intros a b _ _ ? ?. lia.
  - apply NoDup_Permutation; [by apply strictly_sorted_NoDup..|done].
Qed.

(** The points of a timeline trace are fixed by the rows of the company,
    whatever their order. *)
Lemma timeline_of_unique (col : record → Z) (df df' : DataFrame) (id : string)
    (s s' : Scatter) :
  rows df ≡ₚ rows df' →
  timeline_of col df id s → timeline_of col df' id s' →
  trace_x s = trace_x s' ∧ trace_y s = trace_y s'.
Proof.
  intros Hperm (_ & Hsorted & Hlen & Hyears & Hvalue)
         (_ & Hsorted' & Hlen' & Hyears' & Hvalue').
  assert (trace_x s = trace_x s') as Hx.
  { apply strictly_sorted_unique; [done..|].
    intros y. rewrite Hyears, Hyears'. by setoid_rewrite Hperm. }
  split; [done|]. apply list_eq. intros j.
  destruct (trace_x s !! j) as [y|] eqn:Hy.
  - destruct (lookup_lt_is_Some_2 (trace_y s) j) as [v Hv].
    { rewrite <- Hlen. by eapply lookup_lt_Some. }
    destruct (lookup_lt_is_Some_2 (trace_y s') j) as [v' Hv'].
    { rewrite <- Hlen', <- Hx. by eapply lookup_lt_Some. }
    rewrite Hv, Hv'. f_equal.
    rewrite (Hvalue j y v Hy Hv).
    rewrite Hx in Hy. rewrite (Hvalue' j y v' Hy Hv').
    by rewrite Hperm.
  - apply lookup_ge_None in Hy.
    rewrite (proj2 (lookup_ge_None (trace_y s) j)) by lia.
    rewrite (proj2 (lookup_ge_None (trace_y s') j)); [done|].
    rewrite <- Hlen', <- Hx. lia.
Qed.

(** X10: the points of the timelines do not depend on the order of the
    rows in the file: after any reordering of the rows, the traces of a
    company in the patents timeline and in the citations timeline have the
    same years and the same values. (The position of the trace in the
    figure and its name follow the first row of the company and may
    change.) *)
Theorem timelines_ignore_row_order (df df' : DataFrame) (id : string) (i i' : nat) :
  rows df ≡ₚ rows df' →
  unique_ids df !! i = Some id →
  unique_ids df' !! i' = Some id →
  ∃ p p' c c',
    fig_data (create_patents_timeline df) !! i = Some p
    ∧ fig_data (create_patents_timeline df') !! i' = Some p'
    ∧ fig_data (create_citations_timeline df) !! i = Some c
    ∧ fig_data (create_citations_timeline df') !! i' = Some c'
    ∧ trace_x p = trace_x p' ∧ trace_y p = trace_y p'
    ∧ trace_x c = trace_x c' ∧ trace_y c = trace_y c'.
Proof.
  intros Hperm Hi Hi'.
  exists (timeline_trace patents_assigned df id), (timeline_trace patents_assigned df' id),
         (timeline_trace total_citations df id), (timeline_trace total_citations df' id).
  assert (∀ r, in_int64 (patents_assigned r)) as Hp by (intros r; apply record_in_int64).
  assert (∀ r, in_int64 (total_citations r)) as Hc by (intros r; apply record_in_int64).
  destruct (timeline_of_unique patents_assigned df df' id _ _ Hperm
              (timeline_trace_total _ _ _ Hp) (timeline_trace_total _ _ _ Hp))
    as [Hpx Hpy].
  destruct (timeline_of_unique total_citations df df' id _ _ Hperm
              (timeline_trace_total _ _ _ Hc) (timeline_trace_total _ _ _ Hc))
    as [Hcx Hcy].
  unfold create_patents_timeline, create_citations_timeline.
  cbn [fig_data]. rewrite !list_lookup_fmap, Hi, Hi'.
  repeat split; done.
Qed.

Lemma timelines_ignore_row_order_witness :
  ∃ p p' c c',
    fig_data (create_patents_timeline sample_table) !! 1%nat = Some p
    ∧ fig_data (create_patents_timeline reordered_sample) !! 0%nat = Some p'
    ∧ fig_data (create_citations_timeline sample_table) !! 1%nat = Some c
    ∧ fig_data (create_citations_timeline reordered_sample) !! 0%nat = Some c'
    ∧ trace_x p = trace_x p' ∧ trace_y p = trace_y p'
    ∧ trace_x c = trace_x c' ∧ trace_y c = trace_y c'.
Proof.
  apply (timelines_ignore_row_order sample_table reordered_sample "BBBB" 1 0).
  - symmetry. apply reverse_Permutation.
  - reflexivity.
  - reflexivity.
Defined.

(** ** The order of the group keys *)

Lemma string_compare_refl (a : string) : String.compare a a = Eq.
Proof.
  induction a as [|c a IH]; [done|]. simpl.
  unfold Ascii.compare. by rewrite N.compare_refl.
Qed.

Lemma string_compare_gt_lt (a b : string) :
  String.compare a b = Gt → String.compare b a = Lt.
Proof. intros Hab. by rewrite String.compare_antisym, Hab. Qed.

Lemma string_compare_lt_trans (a b c : string) :
  String.compare a b = Lt → String.compare b c = Lt → String.compare a c = Lt.
Proof.
  intros Hab Hbc.
  assert (String.le a c) as Hac.
  { trans b; unfold String.le, String.leb; [by rewrite Hab|by rewrite Hbc]. }
  unfold String.le, String.leb in Hac.
  destruct (String.compare a c) eqn:Hc; [|done|done].
  apply String.compare_eq_iff in Hc as ->.
  rewrite String.compare_antisym, Hbc in Hab. discriminate.
Qed.

Lemma pair_compare_refl (a : string * string) : pair_compare a a = Eq.
Proof. unfold pair_compare. by rewrite !string_compare_refl. Qed.

Lemma pair_compare_gt_lt (a b : string * string) :
  pair_compare a b = Gt → pair_compare b a = Lt.
Proof.
  unfold pair_compare. destruct (String.compare a.1 b.1) eqn:H1; try done.
  - apply String.compare_eq_iff in H1. rewrite H1, string_compare_refl.
    apply string_compare_gt_lt.
  - intros _. by rewrite (string_compare_gt_lt _ _ H1).
Qed.

Lemma pair_compare_lt_trans (a b c : string * string) :
  pair_compare a b = Lt → pair_compare b c = Lt → pair_compare a c = Lt.
Proof.
  unfold pair_compare.
  destruct (String.compare a.1 b.1) eqn:Hab; try done;
    destruct (String.compare b.1 c.1) eqn:Hbc; try done.
  - apply String.compare_eq_iff in Hab, Hbc. rewrite Hab, Hbc, string_compare_refl.
    apply string_compare_lt_trans.
  - apply String.compare_eq_iff in Hab. rewrite Hab, Hbc. done.
  - apply String.compare_eq_iff in Hbc. rewrite <- Hbc, Hab. done.
  - by rewrite (string_compare_lt_trans _ _ _ Hab Hbc).
Qed.

Section groupby_order.
Context {K V : Type} (cmp : K → K → comparison) (merge : V → V → V).
Hypothesis cmp_refl : ∀ a, cmp a a = Eq.
Hypothesis cmp_eq : ∀ a b, cmp a b = Eq → a = b.
Hypothesis cmp_gt_lt : ∀ a b, cmp a b = Gt → cmp b a = Lt.
Hypothesis cmp_lt_trans : ∀ a b c, cmp a b = Lt → cmp b c = Lt → cmp a c = Lt.

Lemma group_add_keys_sorted (k : K) (v : V) (g : list (K * V)) :
  StronglySorted (λ a b, cmp a b = Lt) (g.*1) →
  StronglySorted (λ a b, cmp a b = Lt) ((group_add cmp merge k v g).*1).
Proof.
  induction g as [|[k0 v0] g IH]; simpl; intros Hg.
  - repeat constructor.
  - apply StronglySorted_cons in Hg as [Hlt Hg].
    destruct (cmp k k0) eqn:Hk; simpl.
    + by apply StronglySorted_cons.
    + apply StronglySorted_cons. split; [|by apply StronglySorted_cons].
      constructor; [done|]. eapply Forall_impl; [exact Hlt|]. simpl. eauto.
    + apply StronglySorted_cons. split; [|by apply IH].
      apply Forall_forall. intros k' Hk'.
      apply (group_add_elem_of_keys cmp merge cmp_eq) in Hk' as [->|Hk'].
      * by apply cmp_gt_lt.
      * by eapply Forall_forall in Hlt.
Qed.

Lemma groupby_keys_sorted {R} (key : R → K) (val : R → V) (rs : list R) :
  StronglySorted (λ a b, cmp a b = Lt) ((groupby cmp merge key val rs).*1).
Proof.
  induction rs as [|r rs IH] using rev_ind; [constructor|].
  unfold groupby in *. rewrite foldl_app. simpl. by apply group_add_keys_sorted.
Qed.

Lemma keys_sorted_NoDup (l : list K) :
  StronglySorted (λ a b, cmp a b = Lt) l → NoDup l.
Proof.
  induction 1 as [|a l _ IH Hlt]; constructor; [|done].
  intros Ha. rewrite Forall_forall in Hlt. specialize (Hlt a Ha).
  rewrite cmp_refl in Hlt. discriminate.
Qed.

Lemma groupby_keys_NoDup {R} (key : R → K) (val : R → V) (rs : list R) :
  NoDup ((groupby cmp merge key val rs).*1).
Proof. apply keys_sorted_NoDup, groupby_keys_sorted. Qed.

(** The group keys are fixed by the set of keys of the rows. *)
Lemma groupby_keys_canonical {R R'} (key : R → K) (val : R → V) (rs : list R)
    (key' : R' → K) (val' : R' → V) (rs' : list R') :
  (∀ k, k ∈ key <$> rs ↔ k ∈ key' <$> rs') →
  (groupby cmp merge key val rs).*1 = (groupby cmp merge key' val' rs').*1.
Proof.
  intros Hkeys. apply (StronglySorted_unique_strong (λ a b, cmp a b = Lt)).
  - intros a b _ _ Hab Hba.
    pose proof (cmp_lt_trans _ _ _ Hab Hba) as Haa.
    rewrite cmp_refl in Haa. discriminate.
  - apply groupby_keys_sorted.
  - apply groupby_keys_sorted.
  - apply NoDup_Permutation; [apply groupby_keys_NoDup..|].
    intros k. by rewrite !(groupby_elem_of_keys cmp merge cmp_eq).
Qed.
End groupby_order.

(** ** The catalog and the table *)

(** The catalog is the sorted list of the labelled group keys. *)
Lemma get_company_list_keys (df : DataFrame) :
  get_company_list df
  = merge_sort by_display_name
      ((λ k, (k.1, display_name k.2 k.1))
         <$> (groupby pair_compare Z.add
                (λ r, (assignee_id r, raw_assignee_organization r))
                (λ _, 1) (rows df)).*1).
Proof. unfold get_company_list. by rewrite <- list_fmap_compose. Qed.

Lemma elem_of_catalog_keys (df : DataFrame) (k : string * string) :
  k ∈ (groupby pair_compare Z.add
         (λ r, (assignee_id r, raw_assignee_organization r)) (λ _, 1) (rows df)).*1
  ↔ k ∈ company_pairs df.
Proof. apply (groupby_elem_of_keys _ _ pair_compare_eq). Qed.

Lemma elem_of_get_company_list (df : DataFrame) (row : string * string) :
  row ∈ get_company_list df
  ↔ ∃ r, r ∈ rows df
         ∧ row = (assignee_id r,
                  display_name (raw_assignee_organization r) (assignee_id r)).
Proof.
  rewrite get_company_list_keys, merge_sort_Permutation, list_elem_of_fmap.
  setoid_rewrite elem_of_catalog_keys. unfold company_pairs.
  setoid_rewrite list_elem_of_fmap. split.
  - intros (k & -> & r & -> & Hr). by exists r.
  - intros (r & Hr & ->). eexists. split; [|by exists r]. done.
Qed.

(** X11: the catalog depends only on which (id, organization) pairs occur
    in the table: two tables with the same pairs, whatever the order and
    the number of their rows, have the same catalog, row for row. *)
Theorem get_company_list_row_order (df df' : DataFrame) :
  company_pairs df ⊆ company_pairs df' →
  company_pairs df' ⊆ company_pairs df →
  get_company_list df = get_company_list df'.
Proof.
  intros Hsub Hsup. rewrite !get_company_list_keys. do 2 f_equal.
  apply (groupby_keys_canonical pair_compare Z.add pair_compare_refl pair_compare_eq
           pair_compare_gt_lt pair_compare_lt_trans).
  intros k. split; [apply Hsub|apply Hsup].
Qed.

Lemma get_company_list_row_order_witness :
  get_company_list sample_table = get_company_list reordered_sample.
Proof.
  apply (get_company_list_row_order sample_table reordered_sample).
  - refine (bool_decide_unpack _ _). vm_compute. exact I.
  - refine (bool_decide_unpack _ _). vm_compute. exact I.
Defined.

(** X12: when every company has a single organization name, the catalog
    has exactly one row per company of the table: its ids are the distinct
    ids of the table, each once. *)
Theorem get_company_list_one_row_per_company (df : DataFrame) :
  consistent_names df →
  NoDup (get_company_list df).*1
  ∧ (get_company_list df).*1 ≡ₚ unique_ids df
  ∧ length (get_company_list df) = length (unique_ids df).
Proof.
  intros Hnames. unfold consistent_names in Hnames.
  rewrite Forall_forall in Hnames.
  assert (NoDup (get_company_list df).*1) as Hnodup.
  { rewrite get_company_list_keys, merge_sort_Permutation, <- list_fmap_compose.
    apply NoDup_fmap_2_strong.
    - intros [id org] [id' org'] Hk Hk' Hid. simpl in Hid. subst id'.
      apply elem_of_catalog_keys, list_elem_of_fmap in Hk as (r & [= -> ->] & Hr).
      apply elem_of_catalog_keys, list_elem_of_fmap in Hk' as (r' & [= Hid ->] & Hr').
      f_equal. specialize (Hnames r Hr). rewrite Forall_forall in Hnames.
      by apply Hnames.
    - apply (groupby_keys_NoDup pair_compare Z.add pair_compare_refl pair_compare_eq
               pair_compare_gt_lt pair_compare_lt_trans). }
  assert ((get_company_list df).*1 ≡ₚ unique_ids df) as Hperm.
  { apply NoDup_Permutation; [done|apply NoDup_unique|].
    intros id. rewrite elem_of_unique_ids, list_elem_of_fmap.
    setoid_rewrite elem_of_get_company_list. split.
    - intros (row & -> & r & Hr & ->). by exists r.
    - intros (r & Hr & <-). eexists. split; [|by exists r]. done. }
  split; [done|]. split; [done|].
  by rewrite <- Hperm, length_fmap.
Qed.

Lemma get_company_list_one_row_per_company_witness :
  NoDup (get_company_list sample_table).*1
  ∧ (get_company_list sample_table).*1 ≡ₚ unique_ids sample_table
  ∧ length (get_company_list sample_table) = length (unique_ids sample_table).
Proof.
  apply (get_company_list_one_row_per_company sample_table).
  refine (bool_decide_unpack _ _). vm_compute. exact I.
Defined.

(** Without that condition a company has one row per name. *)
Example catalog_lists_each_name :
  get_company_list
    (read_table []
       [mkRecord "id-1" "Acme" 2015 1 1 ∅ I; mkRecord "id-1" "Acme Inc" 2016 1 1 ∅ I])
  = [("id-1", "Acme (id-1...)"); ("id-1", "Acme Inc (id-1...)")].
Proof. vm_compute. reflexivity. Qed.

(** X13: the name of every trace of the three charts, followed by [" ("],
    the first 8 characters of the id of some company of the table and
    ["...)"], is a display name of the catalog, listed there under that
    id. *)
Theorem trace_names_in_catalog `{!FloatSum} (df : DataFrame) (Y : Z) (s : Scatter) :
  s ∈ fig_data (create_citations_to_year_chart df Y)
  ∨ s ∈ fig_data (create_patents_timeline df)
  ∨ s ∈ fig_data (create_citations_timeline df) →
  ∃ id, id ∈ unique_ids df
    ∧ (id, trace_name s +:+ " (" +:+ Py.prefix 8 id +:+ "...)") ∈ get_company_list df.
Proof.
  assert (∀ id, id ∈ unique_ids df →
            trace_name s = first_organization (company_rows df id) →
            ∃ id, id ∈ unique_ids df
              ∧ (id, trace_name s +:+ " (" +:+ Py.prefix 8 id +:+ "...)")
                  ∈ get_company_list df) as Hnamed.
  { intros id Hid Hname. exists id. split; [done|].
    destruct (company_rows_nonempty df id Hid) as (r & Hhead & Hrid & Hfirst).
    apply elem_of_get_company_list. exists r. split.
    - apply head_Some_elem_of in Hhead.
      unfold company_rows in Hhead. rewrite rows_select in Hhead.
      by apply list_elem_of_filter in Hhead as [_ ?].
    - by rewrite Hname, Hfirst, Hrid. }
  intros [Hs | [Hs | Hs]]; simpl in Hs.
  - apply list_elem_of_omap in Hs as (id & Hid & Htrace).
    apply (Hnamed id Hid).
    by destruct (citations_trace_Some df Y id s Htrace) as (_ & _ & ->).
  - apply list_elem_of_fmap in Hs as (id & -> & Hid). by apply (Hnamed id Hid).
  - apply list_elem_of_fmap in Hs as (id & -> & Hid). by apply (Hnamed id Hid).
Qed.

Lemma trace_names_in_catalog_witness :
  let s := mkScatter [2016] [10] "Beta" in
  ∃ id, id ∈ unique_ids sample_table
    ∧ (id, trace_name s +:+ " (" +:+ Py.prefix 8 id +:+ "...)")
        ∈ get_company_list sample_table.
Proof.
  apply (trace_names_in_catalog sample_table 2016).
  right. left. vm_compute. right. left.
Defined.

(** ** The dropdowns of a loaded table *)

Lemma sorted_NoDup_strictly_sorted (l : list Z) :
  StronglySorted Z.le l → NoDup l → StronglySorted Z.lt l.
Proof.
  induction 1 as [|a l _ IH Hle]; intros Hnd; [constructor|].
  apply NoDup_cons in Hnd as [Ha Hnd]. constructor; [by apply IH|].
  apply Forall_forall. intros b Hb. rewrite Forall_forall in Hle.
  specialize (Hle b Hb). assert (a ≠ b) by (by intros ->). lia.
Qed.

Lemma sorted_years (l : list Z) :
  StronglySorted Z.lt (merge_sort Z.le (unique l))
  ∧ ∀ y, y ∈ merge_sort Z.le (unique l) ↔ y ∈ l.
Proof.
  split.
  - apply sorted_NoDup_strictly_sorted.
    + apply (StronglySorted_merge_sort Z.le).
    + rewrite merge_sort_Permutation. apply NoDup_unique.
  - intros y. by rewrite merge_sort_Permutation, elem_of_unique.
Qed.

Lemma company_options (st : AppState) :
  (options (company_dropdown st)).*1 = (companies st).*2
  ∧ (options (company_dropdown st)).*2 = (companies st).*1.
Proof.
  unfold company_dropdown. simpl. rewrite <- !list_fmap_compose.
  split; by apply list_fmap_ext.
Qed.

Lemma year_options (st : AppState) :
  (options (year_dropdown st)).*1 = Py.str <$> available_years st
  ∧ (options (year_dropdown st)).*2 = available_years st.
Proof.
  unfold year_dropdown. simpl. rewrite <- !list_fmap_compose. split.
  - by apply list_fmap_ext.
  - rewrite <- (list_fmap_id (available_years st)) at 2. by apply list_fmap_ext.
Qed.

(** X14: after a start-up that found the file, the company dropdown offers
    exactly the companies of the table, its labels in ascending order, and
    starts on the first of them; the year dropdown offers exactly the years
    of the table, each once and in increasing order, labelled with their
    numerals, and starts on the earliest year. Both start without a
    selection exactly when the table has no rows. *)
Theorem dropdowns_of_loaded_table (table : DataFrame) (st : AppState) :
  startup (Returned table) = Returned st →
  let company := company_dropdown st in
  let year := year_dropdown st in
  (∀ c, c ∈ (options company).*2 ↔ c ∈ unique_ids table)
  ∧ StronglySorted String.le (options company).*1
  ∧ value company = option_list (head (options company).*2)
  ∧ (value company = [] ↔ rows table = [])
  ∧ (∀ y, y ∈ (options year).*2 ↔ ∃ r, r ∈ rows table ∧ cited_year r = y)
  ∧ StronglySorted Z.lt (options year).*2
  ∧ (options year).*1 = Py.str <$> (options year).*2
  ∧ value year = head (options year).*2
  ∧ (∀ y, value year = Some y → ∀ r, r ∈ rows table → y ≤ cited_year r)
  ∧ (value year = None ↔ rows table = []).
Proof.
  intros Hst company year. subst company year.
  unfold startup, load_data in Hst. case_bool_decide as Hcol; [|done].
  injection Hst as <-.
  destruct (company_options (mkState table (get_company_list table)
              (merge_sort Z.le (unique (cited_year <$> rows table))))) as [-> ->].
  destruct (year_options (mkState table (get_company_list table)
              (merge_sort Z.le (unique (cited_year <$> rows table))))) as [-> ->].
  simpl.
  set (catalog := get_company_list table).
  set (years := merge_sort Z.le (unique (cited_year <$> rows table))).
  destruct (sorted_years (cited_year <$> rows table)) as [Hsorted Hyears].
  fold years in Hsorted, Hyears.
  assert (∀ c, c ∈ catalog.*1 ↔ c ∈ unique_ids table) as Hids.
  { intros c. rewrite elem_of_unique_ids, list_elem_of_fmap. unfold catalog.
    setoid_rewrite elem_of_get_company_list. split.
    - intros (row & -> & r & Hr & ->). by exists r.
    - intros (r & Hr & <-). eexists. split; [|by exists r]. done. }
  assert (catalog = [] ↔ rows table = []) as Hcatalog.
  { split.
    - intros Hnil. destruct (rows table) as [|r rs] eqn:Hrows; [done|].
      assert (assignee_id r ∈ catalog.*1) as Hin.
      { apply Hids, elem_of_unique_ids. exists r. rewrite Hrows. split; [left|done]. }
      rewrite Hnil in Hin. by apply elem_of_nil in Hin.
    - intros Hnil. unfold catalog, get_company_list. by rewrite Hnil. }
  assert (years = [] ↔ rows table = []) as Hyears_nil.
  { split.
    - intros Hnil. destruct (rows table) as [|r rs] eqn:Hrows; [done|].
      assert (cited_year r ∈ years) as Hin by (apply Hyears; simpl; left).
      rewrite Hnil in Hin. by apply elem_of_nil in Hin.
    - intros Hnil. unfold years. by rewrite Hnil. }
  split; [exact Hids|]. split.
  { apply (StronglySorted_fmap _ by_display_name); [done|].
    apply (StronglySorted_merge_sort by_display_name). }
  split. { by destruct catalog. }
  split. { rewrite <- Hcatalog. by destruct catalog. }
  split.
  { intros y. rewrite Hyears, list_elem_of_fmap. naive_solver. }
  split; [done|]. split; [done|]. split; [done|].
  split.
  { intros y Hhead r Hr.
    assert (cited_year r ∈ years) as Hin.
    { apply Hyears, list_elem_of_fmap. by exists r. }
    destruct years as [|y0 ys]; [done|]. injection Hhead as ->.
    apply StronglySorted_cons in Hsorted as [Hlt _].
    apply elem_of_cons in Hin as [->|Hin]; [done|].
    rewrite Forall_forall in Hlt. specialize (Hlt _ Hin). lia. }
  rewrite <- Hyears_nil. by destruct years.
Qed.

Lemma dropdowns_of_loaded_table_witness :
  let company := company_dropdown sample_state in
  let year := year_dropdown sample_state in
  (∀ c, c ∈ (options company).*2 ↔ c ∈ unique_ids sample_table)
  ∧ StronglySorted String.le (options company).*1
  ∧ value company = option_list (head (options company).*2)
  ∧ (value company = [] ↔ rows sample_table = [])
  ∧ (∀ y, y ∈ (options year).*2 ↔ ∃ r, r ∈ rows sample_table ∧ cited_year r = y)
  ∧ StronglySorted Z.lt (options year).*2
  ∧ (options year).*1 = Py.str <$> (options year).*2
  ∧ value year = head (options year).*2
  ∧ (∀ y, value year = Some y → ∀ r, r ∈ rows sample_table → y ≤ cited_year r)
  ∧ (value year = None ↔ rows sample_table = []).
Proof.
  apply (dropdowns_of_loaded_table sample_table sample_state).
  vm_compute. reflexivity.
Defined.

(** ** Restricting the table to the selected companies *)


